(** * Verification of the BTU scheduler socket protocol (btu/btu_api/scheduler.py)

    Shallow embedding of
    - [SchedulerAPI.send_message] / [_send_message_to_scheduler_socket], the
      blocking Unix-domain-socket client, and
    - the [Message] connection class (kept in scheduler.py as a reference
      implementation), its frame encoder [_create_message] and its
      incremental reader [read] / writer [write].

    Python [str] values are lists of code points, Python [bytes] values are
    lists of integers in [0, 256).  Effects are modelled by a small
    state-and-exception monad: a raised Python exception keeps the state
    mutated so far, as in Python. *)

From Stdlib Require Import ZArith List String Ascii Bool Lia.
Import ListNotations.
Open Scope Z_scope.
Set Warnings "-register-all".

(* ------------------------------------------------------------------ *)
(** ** Python values and exceptions *)

(** Code points of a (literal, ASCII) Python string. *)
Definition u (s : string) : list Z :=
  map (fun a => Z.of_nat (nat_of_ascii a)) (list_ascii_of_string s).

Definition bytes := list Z.

(** The Python values that occur in the module: [json] values (floats
    excepted), tuples and [bytes].  Dictionaries are association lists in
    insertion order with [str] keys. *)
Inductive pyval : Type :=
| PNone
| PBool (b : bool)
| PInt (z : Z)
| PStr (s : list Z)
| PList (l : list pyval)
| PDict (kv : list (list Z * pyval))
| PBytes (b : bytes)
| PTuple (l : list pyval).

(** Python exceptions raised along the modelled paths. *)
Inductive exn : Type :=
| TypeError
| ValueError (msg : list Z)
| KeyError
| AttributeError
| FileNotFoundError (msg : list Z)
| OSError (msg : list Z)          (* socket errors, timeouts included *)
| UnicodeEncodeError
| UnicodeDecodeError
| JSONDecodeError
| StructError
| LookupError                     (* codec lookup; only UTF-8 is modelled *)
| RuntimeError (msg : list Z).

(** [str(ex)] *)
Definition exn_str (e : exn) : list Z :=
  match e with
  | ValueError m | FileNotFoundError m | OSError m | RuntimeError m => m
  | _ => []
  end.

(** Python truthiness. *)
Definition truthy (v : pyval) : bool :=
  match v with
  | PNone => false
  | PBool b => b
  | PInt z => negb (z =? 0)
  | PStr s => negb (match s with [] => true | _ => false end)
  | PList l => negb (match l with [] => true | _ => false end)
  | PDict kv => negb (match kv with [] => true | _ => false end)
  | PBytes b => negb (match b with [] => true | _ => false end)
  | PTuple l => negb (match l with [] => true | _ => false end)
  end.

Fixpoint list_Z_eqb (a b : list Z) : bool :=
  match a, b with
  | [], [] => true
  | x :: a', y :: b' => (x =? y) && list_Z_eqb a' b'
  | _, _ => false
  end.

(* ------------------------------------------------------------------ *)
(** ** State and exception monad *)

Definition M (S A : Type) := S -> (exn + A) * S.

Definition ret {S A} (a : A) : M S A := fun s => (inr a, s).
Definition raise {S A} (e : exn) : M S A := fun s => (inl e, s).
Definition bind {S A B} (m : M S A) (k : A -> M S B) : M S B :=
  fun s => match m s with
           | (inl e, s') => (inl e, s')
           | (inr a, s') => k a s'
           end.
Definition get {S} : M S S := fun s => (inr s, s).
Definition put {S} (s : S) : M S unit := fun _ => (inr tt, s).
Definition modify {S} (f : S -> S) : M S unit := fun s => (inr tt, f s).

Notation "x <- m ;; k" := (bind m (fun x => k))
  (at level 61, m at next level, right associativity).
Notation "m ;;; k" := (bind m (fun _ => k))
  (at level 61, right associativity).

(** [try: m  except Exception as ex: h ex] *)
Definition try_except {S A} (m : M S A) (h : exn -> M S A) : M S A :=
  fun s => match m s with
           | (inl e, s') => h e s'
           | r => r
           end.

(** [try: m  finally: fin] *)
Definition try_finally {S A} (m : M S A) (fin : M S unit) : M S A :=
  fun s => match m s with
           | (r, s') => match fin s' with
                        | (inl e, s'') => (inl e, s'')
                        | (inr _, s'') => (r, s'')
                        end
           end.

(** Lift an [exn + A] computed purely. *)
Definition lift {S A} (r : exn + A) : M S A :=
  fun s => (r, s).

(* ------------------------------------------------------------------ *)
(** ** UTF-8 (the strict [utf-8] codec) *)

Definition utf8_char (c : Z) : option (list Z) :=
  if c <? 0 then None
  else if c <? 128 then Some [c]
  else if c <? 2048 then
    Some [Z.lor 192 (Z.shiftr c 6); Z.lor 128 (Z.land c 63)]
  else if (55296 <=? c) && (c <? 57344) then None   (* surrogates not allowed *)
  else if c <? 65536 then
    Some [Z.lor 224 (Z.shiftr c 12); Z.lor 128 (Z.land (Z.shiftr c 6) 63);
          Z.lor 128 (Z.land c 63)]
  else if c <? 1114112 then
    Some [Z.lor 240 (Z.shiftr c 18); Z.lor 128 (Z.land (Z.shiftr c 12) 63);
          Z.lor 128 (Z.land (Z.shiftr c 6) 63); Z.lor 128 (Z.land c 63)]
  else None.

(** [s.encode('utf-8')] *)
Fixpoint utf8_encode (s : list Z) : option bytes :=
  match s with
  | [] => Some []
  | c :: s' =>
      match utf8_char c, utf8_encode s' with
      | Some b, Some r => Some (b ++ r)
      | _, _ => None
      end
  end.

Definition is_cont (b : Z) : bool := (128 <=? b) && (b <? 192).

(** [b.decode('utf-8')], strict: no overlong forms, no surrogates. *)
Fixpoint utf8_decode (b : bytes) : option (list Z) :=
  match b with
  | [] => Some []
  | b1 :: r1 =>
      if (0 <=? b1) && (b1 <? 128) then
        option_map (cons b1) (utf8_decode r1)
      else if (194 <=? b1) && (b1 <? 224) then
        match r1 with
        | b2 :: r2 =>
            if is_cont b2 then
              option_map (cons (Z.lor (Z.shiftl (Z.land b1 31) 6) (Z.land b2 63)))
                         (utf8_decode r2)
            else None
        | [] => None
        end
      else if (224 <=? b1) && (b1 <? 240) then
        match r1 with
        | b2 :: b3 :: r3 =>
            let c := Z.lor (Z.lor (Z.shiftl (Z.land b1 15) 12)
                                  (Z.shiftl (Z.land b2 63) 6)) (Z.land b3 63) in
            if is_cont b2 && is_cont b3 && (2048 <=? c)
               && negb ((55296 <=? c) && (c <? 57344)) then
              option_map (cons c) (utf8_decode r3)
            else None
        | _ => None
        end
      else if (240 <=? b1) && (b1 <? 245) then
        match r1 with
        | b2 :: b3 :: b4 :: r4 =>
            let c := Z.lor (Z.lor (Z.lor (Z.shiftl (Z.land b1 7) 18)
                                         (Z.shiftl (Z.land b2 63) 12))
                                  (Z.shiftl (Z.land b3 63) 6)) (Z.land b4 63) in
            if is_cont b2 && is_cont b3 && is_cont b4
               && (65536 <=? c) && (c <? 1114112) then
              option_map (cons c) (utf8_decode r4)
            else None
        | _ => None
        end
      else None
  end.

(** [str.encode(encoding)] / [bytes.decode(encoding)] for an encoding
    given as a Python value.  Only the codec named exactly ["utf-8"] is
    modelled: any other name (aliases such as ["UTF-8"] or ["utf8"], and
    other codecs such as ["ascii"]) gives [LookupError] here, so the
    statements that decode JSON fix the encoding to ["utf-8"]. *)
Definition codec_encode (enc : pyval) (s : list Z) : exn + bytes :=
  match enc with
  | PStr e =>
      if list_Z_eqb e (u "utf-8") then
        match utf8_encode s with Some b => inr b | None => inl UnicodeEncodeError end
      else inl LookupError
  | _ => inl TypeError
  end.

Definition codec_decode (enc : pyval) (b : bytes) : exn + list Z :=
  match enc with
  | PStr e =>
      if list_Z_eqb e (u "utf-8") then
        match utf8_decode b with Some s => inr s | None => inl UnicodeDecodeError end
      else inl LookupError
  | _ => inl TypeError
  end.

(* ------------------------------------------------------------------ *)
(** ** [json.dumps] (default separators [", "] and [": "]) *)

Definition hexdig (n : Z) : Z := if n <? 10 then 48 + n else 87 + n.

(** ["\\u{0:04x}".format(n)] *)
Definition u_escape (n : Z) : list Z :=
  [92; 117; hexdig (Z.land (Z.shiftr n 12) 15); hexdig (Z.land (Z.shiftr n 8) 15);
   hexdig (Z.land (Z.shiftr n 4) 15); hexdig (Z.land n 15)].

(** One character of [encode_basestring] ([ensure_ascii=False]) or
    [encode_basestring_ascii] ([ensure_ascii=True]). *)
Definition escape_char (ensure_ascii : bool) (c : Z) : list Z :=
  if c =? 92 then [92; 92]
  else if c =? 34 then [92; 34]
  else if c =? 8 then [92; 98]
  else if c =? 12 then [92; 102]
  else if c =? 10 then [92; 110]
  else if c =? 13 then [92; 114]
  else if c =? 9 then [92; 116]
  else if c <? 32 then u_escape c
  else if ensure_ascii && (126 <? c) then
    if c <? 65536 then u_escape c
    else let n := c - 65536 in
         u_escape (Z.lor 55296 (Z.land (Z.shiftr n 10) 1023)) ++
         u_escape (Z.lor 56320 (Z.land n 1023))
  else [c].

Definition quote (ensure_ascii : bool) (s : list Z) : list Z :=
  34 :: flat_map (escape_char ensure_ascii) s ++ [34].

Fixpoint digits_aux (fuel : nat) (n : Z) (acc : list Z) : list Z :=
  match fuel with
  | O => acc
  | S f => if n <? 10 then (48 + n) :: acc
           else digits_aux f (n / 10) ((48 + n mod 10) :: acc)
  end.

(** [repr(n)] for an [int]. *)
Definition int_repr (z : Z) : list Z :=
  if z <? 0 then 45 :: digits_aux (S (Z.to_nat (Z.log2 (- z)))) (- z) []
  else digits_aux (S (Z.to_nat (Z.log2 z))) z [].

Fixpoint dumps (ea : bool) (v : pyval) : option (list Z) :=
  match v with
  | PNone => Some (u "null")
  | PBool true => Some (u "true")
  | PBool false => Some (u "false")
  | PInt z => Some (int_repr z)
  | PStr s => Some (quote ea s)
  | PList l | PTuple l =>
      let fix items (l : list pyval) : option (list Z) :=
        match l with
        | [] => Some []
        | x :: l' =>
            match dumps ea x, l' with
            | Some a, [] => Some a
            | Some a, _ => match items l' with
                           | Some b => Some (a ++ u ", " ++ b)
                           | None => None
                           end
            | None, _ => None
            end
        end in
      option_map (fun b => 91 :: b ++ [93]) (items l)
  | PDict kv =>
      let fix members (kv : list (list Z * pyval)) : option (list Z) :=
        match kv with
        | [] => Some []
        | (k, x) :: kv' =>
            match dumps ea x, kv' with
            | Some a, [] => Some (quote ea k ++ u ": " ++ a)
            | Some a, _ => match members kv' with
                           | Some b => Some (quote ea k ++ u ": " ++ a ++ u ", " ++ b)
                           | None => None
                           end
            | None, _ => None
            end
        end in
      option_map (fun b => 123 :: b ++ [125]) (members kv)
  | PBytes _ => None                (* TypeError: not JSON serializable *)
  end.

(* ------------------------------------------------------------------ *)
(** ** The blocking client: [SchedulerAPI] *)

Inductive RequestType : Type :=
| create_task_schedule
| ping
| cancel_task_schedule.

(** [request_type.name] *)
Definition RequestType_name (r : RequestType) : list Z :=
  match r with
  | create_task_schedule => u "create_task_schedule"
  | ping => u "ping"
  | cancel_task_schedule => u "cancel_task_schedule"
  end.

(** What the environment answers to each operation of one call:
    the Frappe configuration lookup, the file system and the socket. *)
Record world : Type := mkWorld {
  w_config : option (list Z);      (* get_single_value(..., "path_to_btu_scheduler_uds") *)
  w_exists : list Z -> bool;       (* pathlib.Path(p).exists() *)
  w_absolute : list Z -> list Z;   (* str(pathlib.Path(p).absolute()) *)
  w_socket : option exn;           (* socket.socket(AF_UNIX, SOCK_STREAM) raises *)
  w_settimeout : option exn;
  w_connect : option exn;
  w_send : exn + nat;              (* socket.send: number of bytes accepted *)
  w_recv : exn + bytes             (* socket.recv(2048) *)
}.

(** Socket operations the client performs, in order. *)
Inductive event : Type :=
| EvSocket                         (* a socket object was created *)
| EvSettimeout (t : Z)
| EvConnect (path : list Z)
| EvSend (data : bytes) (sent : nat)
| EvSleep
| EvRecv (bufsize : Z)
| EvClose.

Definition trace := list event.

Definition emit (e : event) : M trace unit := modify (fun t => t ++ [e]).

Definition io_unit (o : option exn) : M trace unit :=
  match o with Some e => raise e | None => ret tt end.

Definition sock_new (w : world) : M trace unit :=
  io_unit (w_socket w) ;;; emit EvSocket.
Definition sock_settimeout (w : world) (t : Z) : M trace unit :=
  emit (EvSettimeout t) ;;; io_unit (w_settimeout w).
Definition sock_connect (w : world) (p : list Z) : M trace unit :=
  emit (EvConnect p) ;;; io_unit (w_connect w).
Definition sock_send (w : world) (data : bytes) : M trace nat :=
  match w_send w with
  | inl e => emit (EvSend data 0) ;;; raise e
  | inr n => emit (EvSend data n) ;;; ret n
  end.
Definition sock_recv (w : world) (bufsize : Z) : M trace bytes :=
  emit (EvRecv bufsize) ;;; lift (w_recv w).
Definition sock_close : M trace unit := emit EvClose.

Definition connect_error_prefix : list Z :=
  u "Exception while connecting to BTU Scheduler socket: ".

(** [SchedulerAPI._send_message_to_scheduler_socket(message)]; the debug
    [print]s have no effect on the result and are omitted. *)
Definition send_message_to_scheduler_socket (w : world) (message : pyval)
  : M trace pyval :=
  match message with
  | PStr msg =>
      match w_config w with
      | None | Some [] =>
          raise (ValueError (u "BTU Configuration is missing a path to the Unix Domain Socket for the scheduler daemon."))
      | Some socket_path =>
          if negb (w_exists w socket_path) then
            raise (FileNotFoundError (u "Path to socket file does not exists"))
          else
            early <- try_except
                       (sock_new w ;;;
                        sock_settimeout w 5 ;;;
                        sock_connect w (w_absolute w socket_path) ;;;
                        ret None)
                       (fun ex => ret (Some (PStr (connect_error_prefix ++ exn_str ex)))) ;;
            match early with
            | Some v => ret v
            | None =>
                match utf8_encode msg with
                | None => raise UnicodeEncodeError
                | Some message_bytes =>
                    uds_response <-
                      try_finally
                        (try_except
                           (sock_send w message_bytes ;;;
                            emit EvSleep ;;;
                            d <- sock_recv w 2048;;
                            ret (PBytes d))
                           (fun _ => ret PNone))
                        sock_close ;;
                    match uds_response with
                    | PBytes ((_ :: _) as d) =>
                        match utf8_decode d with
                        | Some s => ret (PStr s)
                        | None => raise UnicodeDecodeError
                        end
                    | r => ret r
                    end
                end
            end
      end
  | _ => raise TypeError
  end.

(** The JSON text [send_message] builds for a request. *)
Definition request_message (request_type : RequestType) (content : pyval) : option (list Z) :=
  dumps true (PDict [(u "request_type", PStr (RequestType_name request_type));
                     (u "request_content", content)]).

(** [SchedulerAPI.send_message(request_type, content)] *)
Definition send_message (w : world) (request_type : RequestType) (content : pyval)
  : M trace pyval :=
  match request_message request_type content with
  | None => raise TypeError
  | Some message_as_string => send_message_to_scheduler_socket w (PStr message_as_string)
  end.

(** [SchedulerAPI.send_ping()] *)
Definition send_ping (w : world) : M trace pyval :=
  send_message w ping PNone.

(** [SchedulerAPI.reload_task_schedule(task_schedule_id)] *)
Definition reload_task_schedule (w : world) (task_schedule_id : pyval) : M trace pyval :=
  send_message w create_task_schedule task_schedule_id.

(** [SchedulerAPI.cancel_task_schedule(task_schedule_id)] (the bare name is
    taken by the [RequestType] member). *)
Definition SchedulerAPI_cancel_task_schedule (w : world) (task_schedule_id : pyval) : M trace pyval :=
  send_message w cancel_task_schedule task_schedule_id.

Definition run_client (m : M trace pyval) : (exn + pyval) * trace := m [].

(* ------------------------------------------------------------------ *)
(** ** [json.loads] (the C scanner of CPython, [strict=True])

    Numbers with a fraction or an exponent, [NaN] and [Infinity] decode
    to Python [float]s, which are outside [pyval]: the decoder reports
    them as [None] like a syntax error. *)

Definition is_ws (c : Z) : bool := (c =? 32) || (c =? 9) || (c =? 10) || (c =? 13).

Fixpoint skip_ws (s : list Z) : list Z :=
  match s with
  | c :: r => if is_ws c then skip_ws r else s
  | [] => []
  end.

Definition is_digit (c : Z) : bool := (48 <=? c) && (c <=? 57).

Definition hexval (c : Z) : option Z :=
  if is_digit c then Some (c - 48)
  else if (97 <=? c) && (c <=? 102) then Some (c - 87)
  else if (65 <=? c) && (c <=? 70) then Some (c - 55)
  else None.

Definition hex4 (a b c d : Z) : option Z :=
  match hexval a, hexval b, hexval c, hexval d with
  | Some x1, Some x2, Some x3, Some x4 => Some (((x1 * 16 + x2) * 16 + x3) * 16 + x4)
  | _, _, _, _ => None
  end.

Definition simple_escape (e : Z) : option Z :=
  if e =? 34 then Some 34 else if e =? 92 then Some 92 else if e =? 47 then Some 47
  else if e =? 98 then Some 8 else if e =? 102 then Some 12
  else if e =? 110 then Some 10 else if e =? 114 then Some 13
  else if e =? 116 then Some 9 else None.

(** [scanstring]: the characters after an opening quote, up to and
    including the closing quote. *)
Fixpoint scan_chars (s : list Z) : option (list Z * list Z) :=
  match s with
  | [] => None                                      (* Unterminated string *)
  | c :: r =>
      if c =? 34 then Some ([], r)
      else if c <? 32 then None                     (* Invalid control character *)
      else if c =? 92 then
        match r with
        | [] => None
        | e :: r1 =>
            if e =? 117 then
              match r1 with
              | a1 :: a2 :: a3 :: a4 :: r2 =>
                  match r2 with
                  | [] => None
                  | _ =>
                  match hex4 a1 a2 a3 a4 with
                  | None => None
                  | Some x =>
                      if (55296 <=? x) && (x <=? 56319) && (7 <=? Z.of_nat (List.length r2)) then
                        match r2 with
                        | s1 :: s2 :: b1 :: b2 :: b3 :: b4 :: r3 =>
                            if (s1 =? 92) && (s2 =? 117) then
                              match hex4 b1 b2 b3 b4 with
                              | None => None
                              | Some y =>
                                  if (56320 <=? y) && (y <=? 57343) then
                                    option_map (fun p => (65536 + Z.lor (Z.shiftl (x - 55296) 10) (y - 56320) :: fst p, snd p))
                                               (scan_chars r3)
                                  else option_map (fun p => (x :: fst p, snd p)) (scan_chars r2)
                              end
                            else option_map (fun p => (x :: fst p, snd p)) (scan_chars r2)
                        | _ => option_map (fun p => (x :: fst p, snd p)) (scan_chars r2)
                        end
                      else option_map (fun p => (x :: fst p, snd p)) (scan_chars r2)
                  end
                  end
              | _ => None
              end
            else match simple_escape e with
                 | Some x => option_map (fun p => (x :: fst p, snd p)) (scan_chars r1)
                 | None => None
                 end
        end
      else option_map (fun p => (c :: fst p, snd p)) (scan_chars r)
  end.

Fixpoint take_digits (s : list Z) : list Z * list Z :=
  match s with
  | c :: r => if is_digit c then let (ds, r') := take_digits r in (c :: ds, r') else ([], s)
  | [] => ([], [])
  end.

Definition digits_value (ds : list Z) : Z :=
  fold_left (fun acc d => acc * 10 + (d - 48)) ds 0.

(** Whether the text after the integer part makes the number a float. *)
Definition float_tail (r : list Z) : bool :=
  match r with
  | c :: r1 =>
      if c =? 46 then match r1 with d :: _ => is_digit d | [] => false end
      else if (c =? 101) || (c =? 69) then
        match r1 with
        | d :: r2 => if (d =? 45) || (d =? 43)
                     then match r2 with d2 :: _ => is_digit d2 | [] => false end
                     else is_digit d
        | [] => false
        end
      else false
  | [] => false
  end.

(** [_match_number_unicode] *)
Definition scan_number (s : list Z) : option (pyval * list Z) :=
  let (neg, s1) := match s with
                   | c :: r => if c =? 45 then (true, r) else (false, s)
                   | [] => (false, s)
                   end in
  let finish ds r :=
    if float_tail r then None
    else Some (PInt (if neg then - digits_value ds else digits_value ds), r) in
  match s1 with
  | [] => None
  | d :: r =>
      if (49 <=? d) && (d <=? 57) then
        let (ds, r') := take_digits r in finish (d :: ds) r'
      else if d =? 48 then finish [d] r
      else None
  end.

Fixpoint has_prefix (p s : list Z) : bool :=
  match p, s with
  | [], _ => true
  | x :: p', y :: s' => (x =? y) && has_prefix p' s'
  | _ :: _, [] => false
  end.

(** [d[k] = v] on a dict built by the decoder. *)
Fixpoint dict_set (kv : list (list Z * pyval)) (k : list Z) (v : pyval) : list (list Z * pyval) :=
  match kv with
  | [] => [(k, v)]
  | (k', v') :: kv' => if list_Z_eqb k' k then (k', v) :: kv' else (k', v') :: dict_set kv' k v
  end.

Fixpoint scan_value (fuel : nat) (s : list Z) {struct fuel} : option (pyval * list Z) :=
  match fuel with
  | O => None
  | S f =>
      match s with
      | [] => None
      | c :: r =>
          if c =? 34 then option_map (fun p => (PStr (fst p), snd p)) (scan_chars r)
          else if c =? 123 then
            match skip_ws r with
            | d :: r2 => if d =? 125 then Some (PDict [], r2) else obj_members f [] (d :: r2)
            | [] => None
            end
          else if c =? 91 then
            match skip_ws r with
            | d :: r2 => if d =? 93 then Some (PList [], r2) else arr_elems f [] (d :: r2)
            | [] => None
            end
          else if has_prefix (u "null") s then Some (PNone, skipn 4 s)
          else if has_prefix (u "true") s then Some (PBool true, skipn 4 s)
          else if has_prefix (u "false") s then Some (PBool false, skipn 5 s)
          else scan_number s
      end
  end
with arr_elems (fuel : nat) (acc : list pyval) (s : list Z) {struct fuel} : option (pyval * list Z) :=
  match fuel with
  | O => None
  | S f =>
      match scan_value f s with
      | None => None
      | Some (v, r) =>
          match skip_ws r with
          | d :: r2 => if d =? 93 then Some (PList (acc ++ [v]), r2)
                       else if d =? 44 then arr_elems f (acc ++ [v]) (skip_ws r2)
                       else None
          | [] => None
          end
      end
  end
with obj_members (fuel : nat) (acc : list (list Z * pyval)) (s : list Z) {struct fuel}
  : option (pyval * list Z) :=
  match fuel with
  | O => None
  | S f =>
      match s with
      | q :: r =>
          if q =? 34 then
            match scan_chars r with
            | None => None
            | Some (k, r1) =>
                match skip_ws r1 with
                | col :: r2 =>
                    if col =? 58 then
                      match scan_value f (skip_ws r2) with
                      | None => None
                      | Some (v, r3) =>
                          match skip_ws r3 with
                          | d :: r4 => if d =? 125 then Some (PDict (dict_set acc k v), r4)
                                       else if d =? 44 then obj_members f (dict_set acc k v) (skip_ws r4)
                                       else None
                          | [] => None
                          end
                      end
                    else None
                | [] => None
                end
            end
          else None
      | [] => None
      end
  end.

(** [json.loads(s)].  [pyval] has no floats: a number with a fraction or
    an exponent, [NaN] and [Infinity] are refused like invalid JSON, so no
    statement here is about float contents. *)
Definition loads (s : list Z) : option pyval :=
  match s with
  | 65279 :: _ => None                               (* Unexpected UTF-8 BOM *)
  | _ =>
      let s1 := skip_ws s in
      match scan_value (2 * List.length s1 + 2) s1 with
      | Some (v, r) => match skip_ws r with [] => Some v | _ => None end
      | None => None
      end
  end.

(* ------------------------------------------------------------------ *)
(** ** Python operations used by [Message] *)

(** [len(x)] *)
Definition py_len (v : pyval) : exn + Z :=
  match v with
  | PStr s => inr (Z.of_nat (List.length s))
  | PList l | PTuple l => inr (Z.of_nat (List.length l))
  | PDict kv => inr (Z.of_nat (List.length kv))
  | PBytes b => inr (Z.of_nat (List.length b))
  | _ => inl TypeError
  end.

Fixpoint dict_lookup (kv : list (list Z * pyval)) (k : list Z) : option pyval :=
  match kv with
  | [] => None
  | (k', v) :: kv' => if list_Z_eqb k' k then Some v else dict_lookup kv' k
  end.

(** [obj[k]] for a [str] key [k]. *)
Definition py_getitem (obj : pyval) (k : list Z) : exn + pyval :=
  match obj with
  | PDict kv => match dict_lookup kv k with Some v => inr v | None => inl KeyError end
  | _ => inl TypeError
  end.

Fixpoint is_infix (k s : list Z) : bool :=
  has_prefix k s || match s with [] => false | _ :: s' => is_infix k s' end.

(** [k in obj] for a [str] [k]. *)
Definition py_contains (obj : pyval) (k : list Z) : exn + bool :=
  match obj with
  | PDict kv => inr (match dict_lookup kv k with Some _ => true | None => false end)
  | PList l | PTuple l => inr (existsb (fun x => match x with PStr s => list_Z_eqb s k | _ => false end) l)
  | PStr s => inr (is_infix k s)
  | _ => inl TypeError
  end.

(** [x == "s"] *)
Definition py_eq_str (v : pyval) (s : list Z) : bool :=
  match v with PStr s' => list_Z_eqb s' s | _ => false end.

(** [int(v)] for the values accepted where an integer is used
    (comparison with a [len] and slice bounds). *)
Definition py_index (v : pyval) : exn + Z :=
  match v with
  | PInt z => inr z
  | PBool b => inr (if b then 1 else 0)
  | _ => inl TypeError
  end.

(** [b[:n]] and [b[n:]] *)
Definition slice_to (b : bytes) (n : Z) : bytes :=
  if n <? 0 then firstn (Z.to_nat (Z.of_nat (List.length b) + n)) b
  else firstn (Z.to_nat n) b.
Definition slice_from (b : bytes) (n : Z) : bytes :=
  if n <? 0 then skipn (Z.to_nat (Z.of_nat (List.length b) + n)) b
  else skipn (Z.to_nat n) b.

(** [Message._json_encode(obj, encoding)] *)
Definition json_encode (obj : pyval) (encoding : pyval) : exn + bytes :=
  match dumps false obj with
  | Some s => codec_encode encoding s
  | None => inl TypeError
  end.

(** [Message._json_decode(json_bytes, encoding)]: a [TextIOWrapper] with
    [newline=""] performs no newline translation. *)
Definition json_decode (json_bytes : bytes) (encoding : pyval) : exn + pyval :=
  match codec_decode encoding json_bytes with
  | inl e => inl e
  | inr s => match loads s with Some v => inr v | None => inl JSONDecodeError end
  end.

(* ------------------------------------------------------------------ *)
(** ** The [Message] connection object *)

Inductive events_mask : Type := EVENT_READ | EVENT_WRITE | EVENT_READ_WRITE.

Record conn : Type := mkConn {
  registered : option events_mask;   (* selector registration of self.sock *)
  sock_open : bool;                  (* self.sock is not None *)
  recv_buffer : bytes;
  send_buffer : bytes;
  request_queued : bool;
  jsonheader_len : option Z;
  jsonheader : pyval;
  response : pyval;
  request : pyval
}.

Definition set_registered c r := mkConn r (sock_open c) (recv_buffer c) (send_buffer c) (request_queued c) (jsonheader_len c) (jsonheader c) (response c) (request c).
Definition set_sock_open c b := mkConn (registered c) b (recv_buffer c) (send_buffer c) (request_queued c) (jsonheader_len c) (jsonheader c) (response c) (request c).
Definition set_recv_buffer c b := mkConn (registered c) (sock_open c) b (send_buffer c) (request_queued c) (jsonheader_len c) (jsonheader c) (response c) (request c).
Definition set_send_buffer c b := mkConn (registered c) (sock_open c) (recv_buffer c) b (request_queued c) (jsonheader_len c) (jsonheader c) (response c) (request c).
Definition set_request_queued c b := mkConn (registered c) (sock_open c) (recv_buffer c) (send_buffer c) b (jsonheader_len c) (jsonheader c) (response c) (request c).
Definition set_jsonheader_len c n := mkConn (registered c) (sock_open c) (recv_buffer c) (send_buffer c) (request_queued c) n (jsonheader c) (response c) (request c).
Definition set_jsonheader c h := mkConn (registered c) (sock_open c) (recv_buffer c) (send_buffer c) (request_queued c) (jsonheader_len c) h (response c) (request c).
Definition set_response c r := mkConn (registered c) (sock_open c) (recv_buffer c) (send_buffer c) (request_queued c) (jsonheader_len c) (jsonheader c) r (request c).

(** [Message.__init__(selector, sock, addr, request)], the socket being
    registered with the selector for [events]. *)
Definition new_message (events : events_mask) (req : pyval) : conn :=
  mkConn (Some events) true [] [] false None PNone PNone req.

(** What [self.sock.recv(4096)] and [self.sock.send(buf)] do on one event. *)
Inductive recv_outcome : Type :=
| RecvData (d : bytes)                (* b"" when the peer has closed *)
| RecvBlocked                         (* BlockingIOError *)
| RecvErr (e : exn).

Inductive send_outcome : Type :=
| SendOk (n : nat)                    (* number of bytes accepted *)
| SendBlocked
| SendErr (e : exn).

Section Message.

(** [sys.byteorder] *)
Variable byteorder : list Z.

Definition MM := M conn.

(** [self._set_selector_events_mask(mode)] *)
Definition set_selector_events_mask (ev : events_mask) : MM unit :=
  c <- get ;;
  if negb (sock_open c) then raise (ValueError (u "Invalid file object: None"))
  else match registered c with
       | None => raise KeyError
       | Some _ => put (set_registered c (Some ev))
       end.

(** [self._read()] *)
Definition read_chunk (o : recv_outcome) : MM unit :=
  c <- get ;;
  if negb (sock_open c) then raise AttributeError
  else match o with
       | RecvBlocked => ret tt
       | RecvErr e => raise e
       | RecvData [] => raise (RuntimeError (u "Peer closed."))
       | RecvData d => put (set_recv_buffer c (recv_buffer c ++ d))
       end.

(** [self._write()] *)
Definition write_chunk (o : send_outcome) : MM unit :=
  c <- get ;;
  match send_buffer c with
  | [] => ret tt
  | buf =>
      if negb (sock_open c) then raise AttributeError
      else match o with
           | SendBlocked => ret tt
           | SendErr e => raise e
           | SendOk sent => put (set_send_buffer c (skipn sent buf))
           end
  end.

(** [self._create_message(content_bytes=..., content_type=..., content_encoding=...)] *)
Definition create_message (content_bytes content_type content_encoding : pyval) : exn + bytes :=
  match py_len content_bytes with
  | inl e => inl e
  | inr n =>
      let jsonheader := PDict [(u "byteorder", PStr byteorder);
                               (u "content-type", content_type);
                               (u "content-encoding", content_encoding);
                               (u "content-length", PInt n)] in
      match json_encode jsonheader (PStr (u "utf-8")) with
      | inl e => inl e
      | inr jsonheader_bytes =>
          let hl := Z.of_nat (List.length jsonheader_bytes) in
          if 65535 <? hl then inl StructError       (* struct.pack(">H", ...) *)
          else match content_bytes with
               | PBytes cb => inr ([Z.shiftr hl 8; Z.land hl 255] ++ jsonheader_bytes ++ cb)
               | _ => inl TypeError
               end
      end
  end.

(** The frame [queue_request] builds for a request
    [{"content": content, "type": content_type, "encoding": encoding}]. *)
Definition request_frame (content content_type content_encoding : pyval) : exn + bytes :=
  if py_eq_str content_type (u "text/json") then
    match json_encode content content_encoding with
    | inl e => inl e
    | inr cb => create_message (PBytes cb) content_type content_encoding
    end
  else create_message content content_type content_encoding.

(** [self.queue_request()] *)
Definition queue_request : MM unit :=
  c <- get ;;
  content <- lift (py_getitem (request c) (u "content")) ;;
  content_type <- lift (py_getitem (request c) (u "type")) ;;
  content_encoding <- lift (py_getitem (request c) (u "encoding")) ;;
  message <- lift (request_frame content content_type content_encoding) ;;
  put (set_request_queued (set_send_buffer c (send_buffer c ++ message)) true).

(** [self.close()]: both failures are caught and printed, except an
    [AttributeError] from [self.sock.close()] when [self.sock] is [None]. *)
Definition close : MM unit :=
  c <- get ;;
  let c1 := set_registered c None in
  if sock_open c then put (set_sock_open c1 false)
  else put c1 ;;; raise AttributeError.

(** [self.process_protoheader()] *)
Definition process_protoheader : MM unit :=
  c <- get ;;
  match recv_buffer c with
  | b0 :: b1 :: rest => put (set_recv_buffer (set_jsonheader_len c (Some (Z.lor (Z.shiftl b0 8) b1))) rest)
  | _ => ret tt
  end.

Definition required_headers : list (list Z) :=
  [u "byteorder"; u "content-length"; u "content-type"; u "content-encoding"].

(** The loop [for reqhdr in (...): if reqhdr not in self.jsonheader: raise]. *)
Fixpoint check_required (hdr : pyval) (ks : list (list Z)) : exn + unit :=
  match ks with
  | [] => inr tt
  | k :: ks' =>
      match py_contains hdr k with
      | inl e => inl e
      | inr true => check_required hdr ks'
      | inr false => inl (ValueError (u "Missing required header"))
      end
  end.

(** [self.process_jsonheader()], called when [_jsonheader_len] is set. *)
Definition process_jsonheader (hdrlen : Z) : MM unit :=
  c <- get ;;
  if Z.of_nat (List.length (recv_buffer c)) >=? hdrlen then
    h <- lift (json_decode (slice_to (recv_buffer c) hdrlen) (PStr (u "utf-8"))) ;;
    put (set_recv_buffer (set_jsonheader c h) (slice_from (recv_buffer c) hdrlen)) ;;;
    lift (check_required h required_headers)
  else ret tt.

(** [self._process_response_json_content()]: [content.get("result")]. *)
Definition process_response_json_content : MM unit :=
  c <- get ;;
  match response c with
  | PDict _ => ret tt
  | _ => raise AttributeError
  end.

(** [self.process_response()] *)
Definition process_response : MM unit :=
  c <- get ;;
  content_len_v <- lift (py_getitem (jsonheader c) (u "content-length")) ;;
  content_len <- lift (py_index content_len_v) ;;
  if negb (Z.of_nat (List.length (recv_buffer c)) >=? content_len) then ret tt
  else
    let data := slice_to (recv_buffer c) content_len in
    put (set_recv_buffer c (slice_from (recv_buffer c) content_len)) ;;;
    content_type <- lift (py_getitem (jsonheader c) (u "content-type")) ;;
    (if py_eq_str content_type (u "text/json") then
       encoding <- lift (py_getitem (jsonheader c) (u "content-encoding")) ;;
       r <- lift (json_decode data encoding) ;;
       c' <- get ;;
       put (set_response c' r) ;;;
       process_response_json_content
     else
       c' <- get ;;
       put (set_response c' (PBytes data))) ;;;
    close.

(** [self.read()] on a read-readiness event. *)
Definition read (o : recv_outcome) : MM unit :=
  read_chunk o ;;;
  c <- get ;;
  (match jsonheader_len c with None => process_protoheader | Some _ => ret tt end) ;;;
  c <- get ;;
  (match jsonheader_len c with
   | Some n => match jsonheader c with PNone => process_jsonheader n | _ => ret tt end
   | None => ret tt
   end) ;;;
  c <- get ;;
  if truthy (jsonheader c) then
    match response c with PNone => process_response | _ => ret tt end
  else ret tt.

(** [self.write()] on a write-readiness event. *)
Definition write (o : send_outcome) : MM unit :=
  c <- get ;;
  (if request_queued c then ret tt else queue_request) ;;;
  write_chunk o ;;;
  c <- get ;;
  if request_queued c then
    match send_buffer c with
    | [] => set_selector_events_mask EVENT_READ
    | _ => ret tt
    end
  else ret tt.

(** [self.process_events(mask)], [mask] being an [int] with
    [selectors.EVENT_READ] = 1 and [selectors.EVENT_WRITE] = 2, and [ro] and
    [so] what the socket does on the [recv] and on the [send]. *)
Definition process_events (mask : Z) (ro : recv_outcome) (so : send_outcome) : MM unit :=
  (if Z.land mask 1 =? 0 then ret tt else read ro) ;;;
  (if Z.land mask 2 =? 0 then ret tt else write so).

(** Successive write events; the reactor stops driving a connection whose
    callback raised. *)
Fixpoint write_all (os : list send_outcome) : MM unit :=
  match os with
  | [] => ret tt
  | o :: os' => write o ;;; write_all os'
  end.

(** Feeding received chunks one read event at a time; the reactor stops
    driving a connection whose callback raised. *)
Fixpoint read_all (chunks : list bytes) : MM unit :=
  match chunks with
  | [] => ret tt
  | d :: ds => read (RecvData d) ;;; read_all ds
  end.

End Message.

(* ------------------------------------------------------------------ *)
(** ** Notations for statements *)

(** A JSON text written with ['] for the double quote. *)
Definition jtext (s : string) : list Z :=
  map (fun c => if c =? 39 then 34 else c) (u s).

(** The first failure among [socket.socket], [settimeout] and [connect]. *)
Definition connect_failure (w : world) : option exn :=
  match w_socket w with
  | Some e => Some e
  | None => match w_settimeout w with
            | Some e => Some e
            | None => w_connect w
            end
  end.

(** The [send] calls of a trace: argument and bytes accepted. *)
Fixpoint sends (t : trace) : list (bytes * nat) :=
  match t with
  | [] => []
  | EvSend d n :: t' => (d, n) :: sends t'
  | _ :: t' => sends t'
  end.

(** Concrete environments. *)
Definition world_ok (reply : bytes) : world :=
  mkWorld (Some (u "/run/btu/scheduler.sock")) (fun _ => true) (fun p => p)
          None None None (inr 50%nat) (inr reply).

Definition world_no_socket_file : world :=
  mkWorld (Some (u "/run/btu/scheduler.sock")) (fun _ => false) (fun p => p)
          None None None (inr 50%nat) (inr []).

Definition world_send_fails : world :=
  mkWorld (Some (u "/run/btu/scheduler.sock")) (fun _ => true) (fun p => p)
          None None None (inl (OSError (u "Broken pipe"))) (inr []).

Definition ping_json : list Z := jtext "{'request_type': 'ping', 'request_content': null}".

(** A connection whose request carries two raw bytes. *)
Definition binary_request : pyval :=
  PDict [(u "content", PBytes [1; 2]); (u "type", PStr (u "binary/custom-client-binary-type"));
         (u "encoding", PStr (u "binary"))].

(** A connection whose metadata header has been parsed, with the given
    [content-length] and [content-type] and receive buffer. *)
Definition parsed_conn (content_length : Z) (content_type : list Z) (buf : bytes) : conn :=
  mkConn (Some EVENT_READ) true buf [] true (Some 0)
         (PDict [(u "byteorder", PStr (u "little")); (u "content-type", PStr content_type);
                 (u "content-encoding", PStr (u "binary"));
                 (u "content-length", PInt content_length)])
         PNone PNone.

(** A connection that has read [buf] after the length prefix [n]. *)
Definition header_conn (n : Z) (buf : bytes) : conn :=
  mkConn (Some EVENT_READ) true buf [] true (Some n) PNone PNone PNone.

(* ------------------------------------------------------------------ *)
(** ** Auxiliary definitions for the round-trip statements *)

(** A Python [str] character: a code point in [0, 0x110000). *)
Definition valid_char (c : Z) : bool := (0 <=? c) && (c <? 1114112).

(** Distinct dictionary keys, as in every Python [dict]. *)
Fixpoint keys_nodup (ks : list (list Z)) : bool :=
  match ks with
  | [] => true
  | k :: ks' => negb (existsb (list_Z_eqb k) ks') && keys_nodup ks'
  end.

(** The values a Python program can hold: strings of code points and
    dictionaries without duplicate keys. *)
Fixpoint valid_pyval (v : pyval) : bool :=
  match v with
  | PStr s => forallb valid_char s
  | PList l | PTuple l => forallb valid_pyval l
  | PDict kv => keys_nodup (map fst kv) &&
                forallb (fun p => forallb valid_char (fst p) && valid_pyval (snd p)) kv
  | _ => true
  end.

(** The same values without tuples: the ones [json.loads] can return. *)
Fixpoint json_value (v : pyval) : bool :=
  match v with
  | PStr s => forallb valid_char s
  | PList l => forallb json_value l
  | PDict kv => keys_nodup (map fst kv) &&
                forallb (fun p => forallb valid_char (fst p) && json_value (snd p)) kv
  | PTuple _ => false
  | _ => true
  end.

(** A value with every tuple replaced by a list, as a JSON round trip
    returns it ([json.dumps] writes a tuple as an array). *)
Fixpoint untuple (v : pyval) : pyval :=
  match v with
  | PList l | PTuple l => PList (map untuple l)
  | PDict kv => PDict (map (fun '(k, x) => (k, untuple x)) kv)
  | _ => v
  end.

(** The element and member loops of [dumps] for lists and dicts, named. *)
Definition dumps_items (ea : bool) : list pyval -> option (list Z) :=
  fix items (l : list pyval) : option (list Z) :=
    match l with
    | [] => Some []
    | x :: l' =>
        match dumps ea x, l' with
        | Some a, [] => Some a
        | Some a, _ => match items l' with
                       | Some b => Some (a ++ u ", " ++ b)
                       | None => None
                       end
        | None, _ => None
        end
    end.

Definition dumps_members (ea : bool) : list (list Z * pyval) -> option (list Z) :=
  fix members (kv : list (list Z * pyval)) : option (list Z) :=
    match kv with
    | [] => Some []
    | (k, x) :: kv' =>
        match dumps ea x, kv' with
        | Some a, [] => Some (quote ea k ++ u ": " ++ a)
        | Some a, _ => match members kv' with
                       | Some b => Some (quote ea k ++ u ": " ++ a ++ u ", " ++ b)
                       | None => None
                       end
        | None, _ => None
        end
    end.

(** A character that may follow a JSON value inside an array or object. *)
Definition delim (rest : list Z) : bool :=
  match rest with [] => true | c :: _ => (c =? 44) || (c =? 93) || (c =? 125) end.

(** Induction over [pyval] through the nested lists. *)
Section pyval_ind_nested.
Variable P : pyval -> Prop.
Hypothesis HNone : P PNone.
Hypothesis HBool : forall b, P (PBool b).
Hypothesis HInt : forall z, P (PInt z).
Hypothesis HStr : forall s, P (PStr s).
Hypothesis HList : forall l, Forall P l -> P (PList l).
Hypothesis HDict : forall kv, Forall (fun p => P (snd p)) kv -> P (PDict kv).
Hypothesis HBytes : forall b, P (PBytes b).
Hypothesis HTuple : forall l, Forall P l -> P (PTuple l).

Fixpoint pyval_ind_nested (v : pyval) : P v :=
  match v with
  | PNone => HNone
  | PBool b => HBool b
  | PInt z => HInt z
  | PStr s => HStr s
  | PList l => HList l ((fix go (l : list pyval) : Forall P l :=
                          match l with
                          | [] => Forall_nil _
                          | x :: l' => Forall_cons x (pyval_ind_nested x) (go l')
                          end) l)
  | PDict kv => HDict kv ((fix go (kv : list (list Z * pyval)) : Forall (fun p => P (snd p)) kv :=
                          match kv with
                          | [] => Forall_nil _
                          | (k, x) :: kv' => Forall_cons (k, x) (pyval_ind_nested x) (go kv')
                          end) kv)
  | PBytes b => HBytes b
  | PTuple l => HTuple l ((fix go (l : list pyval) : Forall P l :=
                          match l with
                          | [] => Forall_nil _
                          | x :: l' => Forall_cons x (pyval_ind_nested x) (go l')
                          end) l)
  end.
End pyval_ind_nested.

(** [scan_value] parses back what [dumps] produced. *)
Definition scan_ok (v : pyval) : Prop :=
  forall t f rest, json_value v = true -> dumps false v = Some t ->
    (List.length t < f)%nat -> delim rest = true -> scan_value f (t ++ rest) = Some (v, rest).

(** The three stages of [read] after [_read()]: protoheader, JSON header
    and payload. *)
Definition process_stages : MM unit :=
  c <- get ;;
  (match jsonheader_len c with None => process_protoheader | Some _ => ret tt end) ;;;
  c <- get ;;
  (match jsonheader_len c with
   | Some n => match jsonheader c with PNone => process_jsonheader n | _ => ret tt end
   | None => ret tt
   end) ;;;
  c <- get ;;
  if truthy (jsonheader c) then
    match response c with PNone => process_response | _ => ret tt end
  else ret tt.

(** The JSON header [_create_message] builds for a ["text/json"] content
    in ["utf-8"] of length [n], with [sys.byteorder] = [bo]. *)
Definition json_frame_header (bo : list Z) (n : Z) : pyval :=
  PDict [(u "byteorder", PStr bo); (u "content-type", PStr (u "text/json"));
         (u "content-encoding", PStr (u "utf-8")); (u "content-length", PInt n)].

(** The JSON header [_create_message] builds for any content type [ct],
    content encoding [enc] and content length [n]. *)
Definition frame_header (bo : list Z) (ct enc : pyval) (n : Z) : pyval :=
  PDict [(u "byteorder", PStr bo); (u "content-type", ct);
         (u "content-encoding", enc); (u "content-length", PInt n)].

(** How far the reader has got once it holds the prefix [p] of a frame
    whose JSON header is [hlen] bytes long: 0 before the length prefix is
    complete, 1 before the header is complete, 2 after. *)
Definition frame_stage (hlen : nat) (p : bytes) : nat :=
  if (List.length p <? 2)%nat then 0 else if (List.length p <? 2 + hlen)%nat then 1 else 2.

(** The connection in stage [k] after receiving [p], starting from [c0]. *)
Definition frame_stage_conn (c0 : conn) (hlen : nat) (hdr : pyval) (k : nat) (p : bytes) : conn :=
  match k with
  | O => set_recv_buffer c0 p
  | 1%nat => set_jsonheader_len (set_recv_buffer c0 (skipn 2 p)) (Some (Z.of_nat hlen))
  | _ => set_jsonheader (set_jsonheader_len (set_recv_buffer c0 (skipn (2 + hlen) p))
                                            (Some (Z.of_nat hlen))) hdr
  end.

(** A sample response frame, for the witnesses. *)
Definition sample_response : pyval := PDict [(u "result", PInt 1)].
Definition sample_frame : bytes :=
  match request_frame (u "little") sample_response (PStr (u "text/json")) (PStr (u "utf-8")) with
  | inr f => f | inl _ => [] end.
Definition sample_chunks : list bytes :=
  [firstn 1 sample_frame; firstn 40 (skipn 1 sample_frame); skipn 41 sample_frame].

(** The frame of the tuple [(1, 2)] sent as ["text/json"]. *)
Definition tuple_frame : bytes :=
  match request_frame (u "little") (PTuple [PInt 1; PInt 2]) (PStr (u "text/json")) (PStr (u "utf-8")) with
  | inr f => f | inl _ => [] end.

(** ASCII code points, the only ones [json.dumps] emits with [ensure_ascii]. *)
Definition is_ascii (c : Z) : bool := (0 <=? c) && (c <? 128).

(** Bytes accepted by the socket over successive write events. *)
Fixpoint sent_total (os : list send_outcome) : nat :=
  match os with
  | [] => 0
  | SendOk n :: os' => n + sent_total os'
  | _ :: os' => sent_total os'
  end.

Definition send_no_error (o : send_outcome) : bool :=
  match o with SendErr _ => false | _ => true end.

(** A queued connection after [k] more bytes of its send buffer went out. *)
Definition queued_after (c : conn) (k : nat) : conn :=
  set_registered (set_send_buffer c (skipn k (send_buffer c)))
    (match skipn k (send_buffer c) with [] => Some EVENT_READ | _ => registered c end).

(** A configuration without a socket path. *)
Definition world_no_config : world :=
  mkWorld None (fun _ => true) (fun p => p) None None None (inr 50%nat) (inr []).

(** A daemon that refuses the connection. *)
Definition world_connect_refused : world :=
  mkWorld (Some (u "/run/btu/scheduler.sock")) (fun _ => true) (fun p => p)
          None None (Some (OSError (u "Connection refused"))) (inr 50%nat) (inr []).

(** The frame of [binary_request]. *)
Definition binary_frame : bytes :=
  match request_frame (u "little") (PBytes [1; 2]) (PStr (u "binary/custom-client-binary-type"))
                      (PStr (u "binary")) with
  | inr f => f | inl _ => [] end.

(** The UTF-8 JSON encoding of [sample_response]. *)
Definition sample_response_bytes : bytes :=
  match json_encode sample_response (PStr (u "utf-8")) with inr b => b | inl _ => [] end.

(** A request dictionary without its [type] key. *)
Definition request_missing_type : pyval :=
  PDict [(u "content", PBytes [1; 2]); (u "encoding", PStr (u "binary"))].

(** A request whose [str] content is announced with a binary content type. *)
Definition text_with_binary_type : pyval :=
  PDict [(u "content", PStr (u "ping")); (u "type", PStr (u "binary/custom-client-binary-type"));
         (u "encoding", PStr (u "binary"))].

(** A connection whose socket has been closed. *)
Definition closed_conn : conn :=
  mkConn None false [] [] true (Some 0) PNone PNone binary_request.

(* ================================================================== *)
(** * Theorems *)

(* ------------------------------------------------------------------ *)
(** ** The blocking client *)

Ltac client_unfold :=
  unfold run_client, send_message_to_scheduler_socket, send_message, send_ping,
    sock_new, sock_settimeout, sock_connect, sock_send, sock_recv, sock_close,
    emit, io_unit, try_except, try_finally, bind, ret, raise, modify, lift in *.

(** C10: once connected and sent, an empty [recv] result is returned as
    [b""]; UTF-8 decoding is applied only to a non-empty reply. *)
Theorem client_empty_reply_returns_empty_bytes :
  forall w msg p mb n d,
    w_config w = Some p -> p <> [] -> w_exists w p = true ->
    w_socket w = None -> w_settimeout w = None -> w_connect w = None ->
    utf8_encode msg = Some mb -> w_send w = inr n -> w_recv w = inr d ->
    fst (run_client (send_message_to_scheduler_socket w (PStr msg))) =
      match d with
      | [] => inr (PBytes [])
      | _ => match utf8_decode d with
             | Some s => inr (PStr s)
             | None => inl UnicodeDecodeError
             end
      end.
Proof.
  intros w msg p mb n d Hc Hp He Hs Ht Hco Hm Hse Hr.
  destruct p as [|x p]; [congruence|].
  client_unfold. rewrite Hc, He, Hs, Ht, Hco, Hm, Hse, Hr. simpl.
  destruct d as [|b d]; [reflexivity|].
  destruct (utf8_decode (b :: d)); reflexivity.
Qed.

Lemma client_empty_reply_returns_empty_bytes_witness :
  fst (run_client (send_message_to_scheduler_socket (world_ok []) (PStr ping_json)))
  = inr (PBytes []).
Proof.
  exact (client_empty_reply_returns_empty_bytes (world_ok []) ping_json
           (u "/run/btu/scheduler.sock") ping_json 50%nat []
           eq_refl ltac:(discriminate) eq_refl eq_refl eq_refl eq_refl
           eq_refl eq_refl eq_refl).
Defined.

(** C8 (counterexample): with no socket file the client does not return
    a value: the run ends in a raised [FileNotFoundError]. *)
Lemma client_missing_socket_file_does_not_return :
  fst (run_client (send_ping world_no_socket_file)) =
  inl (FileNotFoundError (u "Path to socket file does not exists")).
Proof. vm_compute. reflexivity. Qed.

(** C8 (amended): if the configured path does not exist, the client raises
    [FileNotFoundError] and performs no socket operation at all (no socket
    created, no connect). *)
Theorem client_missing_socket_file_raises :
  forall w msg p,
    w_config w = Some p -> p <> [] -> w_exists w p = false ->
    run_client (send_message_to_scheduler_socket w (PStr msg)) =
      (inl (FileNotFoundError (u "Path to socket file does not exists")), []).
Proof.
  intros w msg p Hc Hp He.
  destruct p as [|x p]; [congruence|].
  client_unfold. rewrite Hc, He. reflexivity.
Qed.

Lemma client_missing_socket_file_raises_witness :
  run_client (send_message_to_scheduler_socket world_no_socket_file (PStr ping_json)) =
    (inl (FileNotFoundError (u "Path to socket file does not exists")), []).
Proof.
  exact (client_missing_socket_file_raises world_no_socket_file ping_json
           (u "/run/btu/scheduler.sock") eq_refl ltac:(discriminate) eq_refl).
Defined.

Lemma client_send_calls :
  forall w msg,
    let t := snd (run_client (send_message_to_scheduler_socket w (PStr msg))) in
    sends t = [] \/
    exists mb, utf8_encode msg = Some mb /\
               sends t = [(mb, match w_send w with inr n => n | inl _ => 0%nat end)].
Proof.
  intros w msg t. subst t.
  destruct w as [cfg ex abs so st co se re].
  client_unfold. simpl.
  destruct cfg as [[|x p]|]; simpl; auto.
  destruct (ex (x :: p)); simpl; auto.
  destruct so; simpl; auto.
  destruct st; simpl; auto.
  destruct co; simpl; auto.
  destruct (utf8_encode msg) as [mb|] eqn:Hm; simpl; auto.
  right. exists mb. split; [reflexivity|].
  destruct se; simpl.
  - reflexivity.
  - destruct re as [e|d]; simpl; [reflexivity|].
    destruct d as [|b d]; [reflexivity|].
    destruct (utf8_decode (b :: d)); reflexivity.
Qed.

Lemma in_sends : forall t d n, In (EvSend d n) t -> In (d, n) (sends t).
Proof.
  induction t as [|e t IH]; simpl; intros d n H; [contradiction|].
  destruct H as [H|H].
  - subst e. simpl. left. reflexivity.
  - destruct e; simpl; auto.
Qed.

Lemma request_message_ping : request_message ping PNone = Some ping_json.
Proof. vm_compute. reflexivity. Qed.

Lemma send_ping_unfold :
  forall w, send_ping w = send_message_to_scheduler_socket w (PStr ping_json).
Proof. intros w. unfold send_ping, send_message. rewrite request_message_ping. reflexivity. Qed.

(** C2 (amended): the client makes at most one [send] call; its argument
    is the UTF-8 encoding of the message string itself (no length prefix,
    no metadata header) and only the bytes that call accepts are written,
    the rest is not retried. *)
Theorem client_sends_raw_message_once :
  forall w msg,
    let t := snd (run_client (send_message_to_scheduler_socket w (PStr msg))) in
    sends t = [] \/
    exists mb, utf8_encode msg = Some mb /\
               sends t = [(mb, match w_send w with inr n => n | inl _ => 0%nat end)].
Proof. exact client_send_calls. Qed.

(** C2 (counterexample): for a ping, the bytes given to [send] are not the
    frame [_create_message] builds for that request with content type
    ["text/json"], for either value of [sys.byteorder]. *)
Lemma client_bytes_are_not_a_frame :
  In (EvSend ping_json 50%nat) (snd (run_client (send_ping (world_ok [])))) /\
  (forall bo, bo = u "little" \/ bo = u "big" ->
     request_frame bo (PDict [(u "request_type", PStr (u "ping")); (u "request_content", PNone)])
                   (PStr (u "text/json")) (PStr (u "utf-8")) <> inr ping_json).
Proof.
  split.
  - vm_compute. right; right; right; left. reflexivity.
  - intros bo [-> | ->]; vm_compute; congruence.
Qed.

(** C7 (counterexample): the ping payload is not the camel-case, space-free
    text [{"requestType":"ping","requestContent":null}]. *)
Lemma ping_payload_not_camel_case :
  request_message ping PNone <> Some (jtext "{'requestType':'ping','requestContent':null}").
Proof. vm_compute. discriminate. Qed.

(** C7 (amended): [send_ping] serializes the request as exactly
    [{"request_type": "ping", "request_content": null}] (snake-case keys,
    [json.dumps] default separators), and these are the bytes handed to
    [send]. *)
Theorem ping_payload_exact :
  forall w data n,
    In (EvSend data n) (snd (run_client (send_ping w))) ->
    request_message ping PNone = Some ping_json /\ data = ping_json.
Proof.
  intros w data n Hin. split; [exact request_message_ping|].
  rewrite send_ping_unfold in Hin. apply in_sends in Hin.
  destruct (client_send_calls w ping_json) as [H|[mb [Hm H]]];
    rewrite H in Hin; simpl in Hin; [contradiction|].
  destruct Hin as [Hin|[]]. injection Hin as <- _.
  vm_compute in Hm. injection Hm as <-. reflexivity.
Qed.

Lemma ping_payload_exact_witness :
  request_message ping PNone = Some ping_json /\ ping_json = ping_json.
Proof.
  apply (ping_payload_exact (world_ok []) ping_json 50%nat).
  vm_compute. right; right; right; left. reflexivity.
Defined.

(** C1 (counterexample): an exception raised by [send] is caught, but the
    client then returns [None], not a descriptive error value. *)
Lemma client_send_failure_returns_none :
  fst (run_client (send_ping world_send_fails)) = inr PNone.
Proof. vm_compute. reflexivity. Qed.

(** C1 (amended): an exception while creating the socket, setting its
    timeout or connecting is caught and returned as the string
    ["Exception while connecting to BTU Scheduler socket: " + str(ex)]; an
    exception while sending or receiving is caught, the socket is then
    closed (the last socket operation), and the client returns [None]. *)
Theorem client_failures_caught :
  forall w msg p,
    w_config w = Some p -> p <> [] -> w_exists w p = true ->
    (forall e, connect_failure w = Some e ->
       fst (run_client (send_message_to_scheduler_socket w (PStr msg))) =
         inr (PStr (connect_error_prefix ++ exn_str e))) /\
    (connect_failure w = None -> utf8_encode msg <> None ->
       (exists e, w_send w = inl e) \/ (exists n e, w_send w = inr n /\ w_recv w = inl e) ->
       fst (run_client (send_message_to_scheduler_socket w (PStr msg))) = inr PNone /\
       last (snd (run_client (send_message_to_scheduler_socket w (PStr msg)))) EvSocket = EvClose).
Proof.
  intros w msg p Hc Hp He.
  destruct p as [|x p]; [congruence|].
  destruct w as [cfg ex abs so st co se re]; simpl in Hc, He; subst cfg.
  unfold connect_failure; simpl.
  split.
  - intros e Hf. client_unfold. simpl. rewrite He. simpl.
    destruct so as [e1|]; [injection Hf as <-; reflexivity|].
    destruct st as [e2|]; [injection Hf as <-; reflexivity|].
    subst co. reflexivity.
  - intros Hf Hm Hsr. destruct so; [discriminate|]. destruct st; [discriminate|].
    subst co. client_unfold. simpl. rewrite He. simpl.
    destruct (utf8_encode msg) as [mb|]; [|congruence]. simpl.
    destruct Hsr as [[e ->]|[n [e [-> ->]]]]; simpl; split; reflexivity.
Qed.

Lemma client_failures_caught_witness :
  fst (run_client (send_message_to_scheduler_socket world_send_fails (PStr ping_json))) = inr PNone /\
  last (snd (run_client (send_message_to_scheduler_socket world_send_fails (PStr ping_json)))) EvSocket
    = EvClose.
Proof.
  apply (proj2 (client_failures_caught world_send_fails ping_json (u "/run/btu/scheduler.sock")
                  eq_refl ltac:(discriminate) eq_refl)).
  - reflexivity.
  - vm_compute. discriminate.
  - left. exists (OSError (u "Broken pipe")). reflexivity.
Defined.

(* ------------------------------------------------------------------ *)
(** ** The connection state machine: write events *)

Ltac conn_unfold :=
  unfold write, write_chunk, set_selector_events_mask, get, put, bind, ret, raise, lift in *.

Lemma queue_request_frame :
  forall bo c c1, queue_request bo c = (inr tt, c1) ->
    sock_open c1 = sock_open c /\ registered c1 = registered c /\ request_queued c1 = true.
Proof.
  intros bo c c1 H.
  unfold queue_request, get, put, bind, lift in H.
  destruct (py_getitem (request c) (u "content")); [discriminate|].
  destruct (py_getitem (request c) (u "type")); [discriminate|].
  destruct (py_getitem (request c) (u "encoding")); [discriminate|].
  destruct (request_frame bo _ _ _); [discriminate|].
  injection H as <-. simpl. auto.
Qed.

(** C9 (counterexample): once the send buffer is drained the connection is
    still open and registered, now for read events. *)
Lemma write_drained_not_closed :
  let r := write (u "little") (SendOk 1000) (new_message EVENT_WRITE binary_request) in
  fst r = inr tt /\ send_buffer (snd r) = [] /\
  sock_open (snd r) = true /\ registered (snd r) = Some EVENT_READ.
Proof. vm_compute. repeat split. Qed.

(** C9 (amended): on a write event the request is first queued if it was
    not; then one [send] call removes the accepted prefix of the send
    buffer; when the buffer is then empty the selector registration is
    switched to read events only.  The connection is neither closed nor
    unregistered. *)
Theorem write_event_keeps_connection :
  forall bo c n c1,
    sock_open c = true -> registered c <> None ->
    (if request_queued c then ret tt else queue_request bo) c = (inr tt, c1) ->
    exists c2, write bo (SendOk n) c = (inr tt, c2) /\
      send_buffer c2 = skipn n (send_buffer c1) /\ sock_open c2 = true /\
      registered c2 = match skipn n (send_buffer c1) with
                      | [] => Some EVENT_READ
                      | _ => registered c
                      end.
Proof.
  intros bo c n c1 Ho Hr Hq.
  assert (H1 : sock_open c1 = true /\ registered c1 = registered c /\ request_queued c1 = true).
  { destruct (request_queued c) eqn:E.
    - unfold ret in Hq. injection Hq as <-. auto.
    - apply queue_request_frame in Hq. destruct Hq as [-> [-> ->]]. auto. }
  destruct H1 as [Ho1 [Hr1 Hq1]].
  unfold write, get, bind. rewrite Hq.
  unfold write_chunk, get, bind.
  destruct (send_buffer c1) as [|b buf] eqn:Eb.
  - unfold ret. rewrite Hq1.
    unfold set_selector_events_mask, get, bind, put. rewrite Eb, Ho1. simpl.
    destruct (registered c1) eqn:R; [|congruence].
    eexists; split; [reflexivity|]. simpl. rewrite Eb, Ho1. destruct n; auto.
  - rewrite Ho1. simpl. unfold put. simpl. rewrite Hq1.
    destruct (@skipn Z n (b :: buf)) as [|b' buf'] eqn:Es.
    + unfold set_selector_events_mask, get, bind, put. simpl. rewrite Ho1.
      destruct (registered c1) eqn:R; [|congruence]. simpl.
      eexists; split; [reflexivity|]. simpl. auto.
    + unfold ret. eexists; split; [reflexivity|]. simpl. rewrite Hr1. auto.
Qed.

Lemma write_event_keeps_connection_witness :
  exists c2, write (u "little") (SendOk 1000) (new_message EVENT_WRITE binary_request) = (inr tt, c2) /\
    send_buffer c2 = [] /\ sock_open c2 = true /\ registered c2 = Some EVENT_READ.
Proof.
  destruct (write_event_keeps_connection (u "little") (new_message EVENT_WRITE binary_request) 1000
              (snd (queue_request (u "little") (new_message EVENT_WRITE binary_request)))
              eq_refl ltac:(discriminate) ltac:(vm_compute; reflexivity))
    as [c2 [H1 [H2 [H3 H4]]]].
  exists c2. vm_compute in H2, H4. auto.
Defined.

(* ------------------------------------------------------------------ *)
(** ** The connection state machine: header and payload steps *)

Lemma check_required_spec :
  forall h ks, check_required h ks = inr tt -> forall k, In k ks -> py_contains h k = inr true.
Proof.
  intros h ks. induction ks as [|k0 ks IH]; simpl; intros H k Hk; [contradiction|].
  destruct (py_contains h k0) as [e|[|]] eqn:E; try discriminate.
  destruct Hk as [<-|Hk]; auto.
Qed.

(** C6: if the decoded metadata header does not contain one of the four
    required keys ([byteorder], [content-length], [content-type],
    [content-encoding]; [k in header] is not [True]), the header step
    raises.  (Python has already stored the decoded header in
    [self.jsonheader] when it raises.) *)
Theorem jsonheader_missing_key_fails :
  forall c hdrlen h k,
    In k required_headers ->
    hdrlen <= Z.of_nat (List.length (recv_buffer c)) ->
    json_decode (slice_to (recv_buffer c) hdrlen) (PStr (u "utf-8")) = inr h ->
    py_contains h k <> inr true ->
    exists e c', process_jsonheader hdrlen c = (inl e, c') /\ jsonheader c' = h.
Proof.
  intros c hdrlen h k Hk Hlen Hdec Hmiss.
  unfold process_jsonheader, get, bind, put, lift.
  replace (Z.of_nat (List.length (recv_buffer c)) >=? hdrlen) with true by lia.
  rewrite Hdec.
  destruct (check_required h required_headers) as [e|[]] eqn:E.
  - exists e. eexists. split; reflexivity.
  - exfalso. apply Hmiss. exact (check_required_spec _ _ E k Hk).
Qed.

Definition header_missing_length : list Z :=
  jtext "{'byteorder': 'little', 'content-type': 'text/json', 'content-encoding': 'utf-8'}".

Lemma jsonheader_missing_key_fails_witness :
  exists e c', process_jsonheader (Z.of_nat (List.length header_missing_length))
                 (header_conn (Z.of_nat (List.length header_missing_length)) header_missing_length)
               = (inl e, c') /\
               jsonheader c' = PDict [(u "byteorder", PStr (u "little"));
                                      (u "content-type", PStr (u "text/json"));
                                      (u "content-encoding", PStr (u "utf-8"))].
Proof.
  apply (jsonheader_missing_key_fails
           (header_conn (Z.of_nat (List.length header_missing_length)) header_missing_length)
           (Z.of_nat (List.length header_missing_length)) _ (u "content-length")).
  - simpl. right. left. reflexivity.
  - simpl. lia.
  - vm_compute. reflexivity.
  - vm_compute. discriminate.
Defined.

(** C5 (counterexample): the payload step accepts a frame although the
    buffered payload is not exactly [content-length] bytes: with a surplus
    byte it takes the first two and leaves the third; with
    [content-length] -1 it takes all but the last byte. *)
Lemma payload_accepted_with_other_length :
  let r1 := process_response (parsed_conn 2 (u "application/octet-stream") [1; 2; 3]) in
  let r2 := process_response (parsed_conn (-1) (u "application/octet-stream") [1; 2; 3]) in
  fst r1 = inr tt /\ response (snd r1) = PBytes [1; 2] /\ recv_buffer (snd r1) = [3] /\
  sock_open (snd r1) = false /\
  fst r2 = inr tt /\ response (snd r2) = PBytes [1; 2] /\ recv_buffer (snd r2) = [3] /\
  sock_open (snd r2) = false.
Proof. vm_compute. repeat split. Qed.

Lemma slice_exact :
  forall (p rest : bytes) n, Z.of_nat (List.length p) = n ->
    slice_to (p ++ rest) n = p /\ slice_from (p ++ rest) n = rest.
Proof.
  intros p rest n Hn. unfold slice_to, slice_from.
  replace (n <? 0) with false by lia.
  replace (Z.to_nat n) with (List.length p) by lia.
  rewrite firstn_app, skipn_app, firstn_all, skipn_all, Nat.sub_diag. simpl.
  rewrite app_nil_r. auto.
Qed.

(** Case analysis on the innermost [match]es of the goal. *)
Ltac destruct_matches :=
  repeat (simpl; match goal with
                 | |- context [match ?x with _ => _ end] =>
                     lazymatch x with
                     | context [match _ with _ => _ end] => fail
                     | _ => destruct x
                     end
                 end).

(** C5 (amended): when the header's [content-length] is a non-negative
    [int] [n], the payload step leaves the connection unchanged while fewer
    than [n] bytes are buffered; once the buffer holds [n] bytes followed by
    any surplus, the step behaves exactly as on those [n] bytes alone and
    leaves the surplus in the receive buffer. *)
Theorem payload_step_length_authority :
  forall c v n,
    py_getitem (jsonheader c) (u "content-length") = inr v -> py_index v = inr n -> 0 <= n ->
    (Z.of_nat (List.length (recv_buffer c)) < n -> process_response c = (inr tt, c)) /\
    (forall p rest, recv_buffer c = p ++ rest -> Z.of_nat (List.length p) = n ->
       fst (process_response c) = fst (process_response (set_recv_buffer c p)) /\
       snd (process_response c) = set_recv_buffer (snd (process_response (set_recv_buffer c p))) rest /\
       recv_buffer (snd (process_response (set_recv_buffer c p))) = []).
Proof.
  intros c v n Hv Hn Hpos. split.
  - intros Hlt. unfold process_response, get, bind, lift. rewrite Hv, Hn.
    replace (Z.of_nat (List.length (recv_buffer c)) >=? n) with false by lia.
    reflexivity.
  - intros p rest Hb Hp.
    destruct (slice_exact p rest n Hp) as [S1 S2].
    destruct (slice_exact p [] n Hp) as [S3 S4]. rewrite app_nil_r in S3, S4.
    assert (L1 : (Z.of_nat (List.length (recv_buffer c)) >=? n) = true).
    { apply Z.geb_le. rewrite Hb, length_app. lia. }
    assert (L2 : (Z.of_nat (List.length p) >=? n) = true) by (apply Z.geb_le; lia).
    destruct c as [rg so rb sb rq hl jh rs rqst]; simpl in *. subst rb.
    unfold process_response, get, bind, lift, put. simpl.
    rewrite Hv, Hn, L1, L2. simpl. rewrite S1, S2, S3, S4. simpl.
    unfold process_response_json_content, close, get, put, bind, ret, raise, lift,
      set_response, set_recv_buffer, set_registered, set_sock_open; simpl.
    destruct_matches; auto.
Qed.

Lemma payload_step_length_authority_witness :
  (Z.of_nat (List.length (recv_buffer (parsed_conn 2 (u "application/octet-stream") [1; 2; 3]))) < 2 ->
   process_response (parsed_conn 2 (u "application/octet-stream") [1; 2; 3]) =
     (inr tt, parsed_conn 2 (u "application/octet-stream") [1; 2; 3])) /\
  (fst (process_response (parsed_conn 2 (u "application/octet-stream") [1; 2; 3])) =
     fst (process_response (set_recv_buffer (parsed_conn 2 (u "application/octet-stream") [1; 2; 3]) [1; 2])) /\
   snd (process_response (parsed_conn 2 (u "application/octet-stream") [1; 2; 3])) =
     set_recv_buffer (snd (process_response (set_recv_buffer (parsed_conn 2 (u "application/octet-stream") [1; 2; 3]) [1; 2]))) [3] /\
   recv_buffer (snd (process_response (set_recv_buffer (parsed_conn 2 (u "application/octet-stream") [1; 2; 3]) [1; 2]))) = []).
Proof.
  destruct (payload_step_length_authority (parsed_conn 2 (u "application/octet-stream") [1; 2; 3])
              (PInt 2) 2 eq_refl eq_refl ltac:(lia)) as [H1 H2].
  split; [exact H1|].
  apply (H2 [1; 2] [3]); reflexivity.
Defined.

(* ------------------------------------------------------------------ *)
(** ** The frame codec: UTF-8 and JSON round trips *)
Lemma lor_add_low :
  forall x b k, 0 <= k -> x mod 2 ^ k = 0 -> 0 <= b < 2 ^ k -> Z.lor x b = x + b.
Proof.
  intros x b k Hk Hx Hb.
  assert (Hl : Z.land x b = 0).
  { apply Z.bits_inj'. intros i Hi. rewrite Z.land_spec, Z.bits_0.
    destruct (Z.lt_ge_cases i k) as [Hik|Hik].
    - replace x with (x / 2 ^ k * 2 ^ k) by (pose proof (Z.div_mod x (2 ^ k)); lia).
      rewrite Z.mul_pow2_bits_low by lia. reflexivity.
    - rewrite <- (Z.mod_small b (2 ^ k)) by lia.
      rewrite Z.mod_pow2_bits_high by lia. apply andb_false_r. }
  rewrite <- Z.lxor_lor by exact Hl. rewrite Z.add_nocarry_lxor by exact Hl. reflexivity.
Qed.

Lemma land_mask : forall c k, 0 <= k -> Z.land c (Z.ones k) = c mod 2 ^ k.
Proof. intros. apply Z.land_ones; lia. Qed.

Lemma land_63 : forall c, Z.land c 63 = c mod 64.
Proof. intros. exact (land_mask c 6 ltac:(lia)). Qed.
Lemma land_31 : forall c, Z.land c 31 = c mod 32.
Proof. intros. exact (land_mask c 5 ltac:(lia)). Qed.
Lemma land_15 : forall c, Z.land c 15 = c mod 16.
Proof. intros. exact (land_mask c 4 ltac:(lia)). Qed.
Lemma land_7 : forall c, Z.land c 7 = c mod 8.
Proof. intros. exact (land_mask c 3 ltac:(lia)). Qed.
Lemma land_255 : forall c, Z.land c 255 = c mod 256.
Proof. intros. exact (land_mask c 8 ltac:(lia)). Qed.

Ltac bits_to_arith :=
  repeat match goal with
  | |- context [Z.shiftr ?c ?k] => rewrite (Z.shiftr_div_pow2 c k) by lia
  | |- context [Z.shiftl ?c ?k] => rewrite (Z.shiftl_mul_pow2 c k) by lia
  end;
  rewrite ?land_63, ?land_31, ?land_15, ?land_7, ?land_255;
  cbn [Z.pow Z.pow_pos Pos.iter Z.mul Pos.mul] in *.



Lemma utf8_char_cases :
  forall c bs, utf8_char c = Some bs ->
    (0 <= c < 128 /\ bs = [c]) \/
    (128 <= c < 2048 /\ bs = [Z.lor 192 (Z.shiftr c 6); Z.lor 128 (Z.land c 63)]) \/
    (2048 <= c < 65536 /\ ~ (55296 <= c < 57344) /\
     bs = [Z.lor 224 (Z.shiftr c 12); Z.lor 128 (Z.land (Z.shiftr c 6) 63);
           Z.lor 128 (Z.land c 63)]) \/
    (65536 <= c < 1114112 /\
     bs = [Z.lor 240 (Z.shiftr c 18); Z.lor 128 (Z.land (Z.shiftr c 12) 63);
           Z.lor 128 (Z.land (Z.shiftr c 6) 63); Z.lor 128 (Z.land c 63)]).
Proof.
  intros c bs H. unfold utf8_char in H.
  destruct (Z.ltb_spec c 0); [discriminate|].
  destruct (Z.ltb_spec c 128); [left; split; [lia|congruence]|].
  destruct (Z.ltb_spec c 2048); [right; left; split; [lia|congruence]|].
  destruct (Z.leb_spec 55296 c), (Z.ltb_spec c 57344); cbn [andb] in H;
    try discriminate;
  (destruct (Z.ltb_spec c 65536); [right; right; left; split; [lia|split; [lia|congruence]]|]);
  (destruct (Z.ltb_spec c 1114112); [right; right; right; split; [lia|congruence]|discriminate]).
Qed.


Lemma utf8_decode_1 : forall b1 rest, 0 <= b1 < 128 ->
  utf8_decode (b1 :: rest) = option_map (cons b1) (utf8_decode rest).
Proof.
  intros. cbn [utf8_decode]. replace ((0 <=? b1) && (b1 <? 128)) with true by lia. reflexivity.
Qed.

Lemma utf8_decode_2 : forall b1 b2 rest, 194 <= b1 < 224 -> 128 <= b2 < 192 ->
  utf8_decode (b1 :: b2 :: rest) =
  option_map (cons (Z.lor (Z.shiftl (Z.land b1 31) 6) (Z.land b2 63))) (utf8_decode rest).
Proof.
  intros. cbn [utf8_decode]. unfold is_cont.
  replace ((0 <=? b1) && (b1 <? 128)) with false by lia.
  replace ((194 <=? b1) && (b1 <? 224)) with true by lia.
  replace ((128 <=? b2) && (b2 <? 192)) with true by lia. reflexivity.
Qed.

Lemma utf8_decode_3 : forall b1 b2 b3 rest c,
  224 <= b1 < 240 -> 128 <= b2 < 192 -> 128 <= b3 < 192 ->
  c = Z.lor (Z.lor (Z.shiftl (Z.land b1 15) 12) (Z.shiftl (Z.land b2 63) 6)) (Z.land b3 63) ->
  2048 <= c -> ~ (55296 <= c < 57344) ->
  utf8_decode (b1 :: b2 :: b3 :: rest) = option_map (cons c) (utf8_decode rest).
Proof.
  intros b1 b2 b3 rest c H1 H2 H3 Hc H4 H5. cbn [utf8_decode]. unfold is_cont. rewrite <- Hc.
  replace ((0 <=? b1) && (b1 <? 128)) with false by lia.
  replace ((194 <=? b1) && (b1 <? 224)) with false by lia.
  replace ((224 <=? b1) && (b1 <? 240)) with true by lia.
  replace ((128 <=? b2) && (b2 <? 192) && ((128 <=? b3) && (b3 <? 192)) && (2048 <=? c) &&
           negb ((55296 <=? c) && (c <? 57344))) with true by lia. reflexivity.
Qed.

Lemma utf8_decode_4 : forall b1 b2 b3 b4 rest c,
  240 <= b1 < 245 -> 128 <= b2 < 192 -> 128 <= b3 < 192 -> 128 <= b4 < 192 ->
  c = Z.lor (Z.lor (Z.lor (Z.shiftl (Z.land b1 7) 18) (Z.shiftl (Z.land b2 63) 12))
                   (Z.shiftl (Z.land b3 63) 6)) (Z.land b4 63) ->
  65536 <= c < 1114112 ->
  utf8_decode (b1 :: b2 :: b3 :: b4 :: rest) = option_map (cons c) (utf8_decode rest).
Proof.
  intros b1 b2 b3 b4 rest c H1 H2 H3 H4 Hc H5. cbn [utf8_decode]. unfold is_cont. rewrite <- Hc.
  replace ((0 <=? b1) && (b1 <? 128)) with false by lia.
  replace ((194 <=? b1) && (b1 <? 224)) with false by lia.
  replace ((224 <=? b1) && (b1 <? 240)) with false by lia.
  replace ((240 <=? b1) && (b1 <? 245)) with true by lia.
  replace ((128 <=? b2) && (b2 <? 192) && ((128 <=? b3) && (b3 <? 192)) &&
           ((128 <=? b4) && (b4 <? 192)) && (65536 <=? c) && (c <? 1114112)) with true by lia.
  reflexivity.
Qed.

Lemma utf8_char_decode :
  forall c bs rest, utf8_char c = Some bs ->
    utf8_decode (bs ++ rest) = option_map (cons c) (utf8_decode rest).
Proof.
  intros c bs rest H.
  destruct (utf8_char_cases c bs H) as [[Hc ->]|[[Hc ->]|[[Hc [Hs ->]]|[Hc ->]]]].
  - apply utf8_decode_1. lia.
  - cbn [app]. bits_to_arith.
    rewrite (lor_add_low 192 (c / 64) 6) by (cbn; Z.div_mod_to_equations; lia).
    rewrite (lor_add_low 128 (c mod 64) 6) by (cbn; Z.div_mod_to_equations; lia).
    rewrite utf8_decode_2 by (Z.div_mod_to_equations; lia).
    bits_to_arith.
    rewrite (lor_add_low _ _ 6) by (cbn; Z.div_mod_to_equations; lia).
    f_equal. f_equal. Z.div_mod_to_equations; lia.
  - cbn [app]. bits_to_arith.
    rewrite (lor_add_low 224 (c / 4096) 5) by (cbn; Z.div_mod_to_equations; lia).
    rewrite (lor_add_low 128 ((c / 64) mod 64) 6) by (cbn; Z.div_mod_to_equations; lia).
    rewrite (lor_add_low 128 (c mod 64) 6) by (cbn; Z.div_mod_to_equations; lia).
    apply utf8_decode_3; try (Z.div_mod_to_equations; lia).
    bits_to_arith.
    rewrite (lor_add_low (_ * 4096) _ 12) by (cbn; Z.div_mod_to_equations; lia).
    rewrite (lor_add_low _ _ 6) by (cbn; Z.div_mod_to_equations; lia).
    Z.div_mod_to_equations; lia.
  - cbn [app]. bits_to_arith.
    rewrite (lor_add_low 240 (c / 262144) 4) by (cbn; Z.div_mod_to_equations; lia).
    rewrite (lor_add_low 128 ((c / 4096) mod 64) 6) by (cbn; Z.div_mod_to_equations; lia).
    rewrite (lor_add_low 128 ((c / 64) mod 64) 6) by (cbn; Z.div_mod_to_equations; lia).
    rewrite (lor_add_low 128 (c mod 64) 6) by (cbn; Z.div_mod_to_equations; lia).
    apply utf8_decode_4; try (Z.div_mod_to_equations; lia).
    bits_to_arith.
    rewrite (lor_add_low (_ * 262144) _ 18) by (cbn; Z.div_mod_to_equations; lia).
    rewrite (lor_add_low (_ * 262144 + _) _ 12) by (cbn; Z.div_mod_to_equations; lia).
    rewrite (lor_add_low _ _ 6) by (cbn; Z.div_mod_to_equations; lia).
    Z.div_mod_to_equations; lia.
Qed.

Lemma utf8_roundtrip : forall s b, utf8_encode s = Some b -> utf8_decode b = Some s.
Proof.
  induction s as [|c s IH]; intros b H; simpl in H.
  - injection H as <-. reflexivity.
  - destruct (utf8_char c) as [bc|] eqn:Ec; [|discriminate].
    destruct (utf8_encode s) as [bs|] eqn:Es; [|discriminate].
    injection H as <-. rewrite (utf8_char_decode c bc bs Ec), (IH bs eq_refl). reflexivity.
Qed.


Lemma dumps_list : forall ea l, dumps ea (PList l) = option_map (fun b => 91 :: b ++ [93]) (dumps_items ea l).
Proof. reflexivity. Qed.
Lemma dumps_tuple : forall ea l, dumps ea (PTuple l) = dumps ea (PList l).
Proof. reflexivity. Qed.
Lemma dumps_dict : forall ea kv, dumps ea (PDict kv) = option_map (fun b => 123 :: b ++ [125]) (dumps_members ea kv).
Proof. reflexivity. Qed.

Lemma dumps_items_cons : forall ea x y l,
  dumps_items ea (x :: y :: l) =
  match dumps ea x with
  | Some a => option_map (fun b => a ++ u ", " ++ b) (dumps_items ea (y :: l))
  | None => None
  end.
Proof.
  intros ea x y l.
  change (dumps_items ea (x :: y :: l)) with
    (match dumps ea x, y :: l with
     | Some a, [] => Some a
     | Some a, _ => match dumps_items ea (y :: l) with Some b => Some (a ++ u ", " ++ b) | None => None end
     | None, _ => None
     end).
  destruct (dumps ea x); reflexivity.
Qed.

Lemma dumps_members_cons : forall ea k x p kv,
  dumps_members ea ((k, x) :: p :: kv) =
  match dumps ea x with
  | Some a => option_map (fun b => quote ea k ++ u ": " ++ a ++ u ", " ++ b) (dumps_members ea (p :: kv))
  | None => None
  end.
Proof.
  intros ea k x p kv.
  change (dumps_members ea ((k, x) :: p :: kv)) with
    (match dumps ea x, p :: kv with
     | Some a, [] => Some (quote ea k ++ u ": " ++ a)
     | Some a, _ => match dumps_members ea (p :: kv) with
                    | Some b => Some (quote ea k ++ u ": " ++ a ++ u ", " ++ b)
                    | None => None end
     | None, _ => None
     end).
  destruct (dumps ea x); reflexivity.
Qed.


(* strings *)
Lemma scan_escape :
  forall c t, 0 <= c -> t <> [] ->
    scan_chars (escape_char false c ++ t) = option_map (fun p => (c :: fst p, snd p)) (scan_chars t).
Proof.
  intros c t Hc Ht. destruct t as [|a t]; [congruence|].
  destruct (Z.ltb_spec c 32).
  - assert (c = 0 \/ c = 1 \/ c = 2 \/ c = 3 \/ c = 4 \/ c = 5 \/ c = 6 \/ c = 7 \/ c = 8 \/
            c = 9 \/ c = 10 \/ c = 11 \/ c = 12 \/ c = 13 \/ c = 14 \/ c = 15 \/ c = 16 \/
            c = 17 \/ c = 18 \/ c = 19 \/ c = 20 \/ c = 21 \/ c = 22 \/ c = 23 \/ c = 24 \/
            c = 25 \/ c = 26 \/ c = 27 \/ c = 28 \/ c = 29 \/ c = 30 \/ c = 31) by lia.
    repeat match goal with H : _ \/ _ |- _ => destruct H as [->|H] end; try subst c; reflexivity.
  - unfold escape_char.
    destruct (Z.eqb_spec c 92); [subst; reflexivity|].
    destruct (Z.eqb_spec c 34); [subst; reflexivity|].
    replace (c =? 8) with false by lia. replace (c =? 12) with false by lia.
    replace (c =? 10) with false by lia. replace (c =? 13) with false by lia.
    replace (c =? 9) with false by lia. replace (c <? 32) with false by lia.
    cbn [andb app scan_chars].
    replace (c =? 34) with false by lia. replace (c <? 32) with false by lia.
    replace (c =? 92) with false by lia. reflexivity.
Qed.

Lemma scan_string :
  forall s rest, forallb valid_char s = true ->
    scan_chars (flat_map (escape_char false) s ++ 34 :: rest) = Some (s, rest).
Proof.
  induction s as [|c s IH]; intros rest Hv; [reflexivity|].
  simpl in Hv. apply andb_prop in Hv as [Hc Hv]. unfold valid_char in Hc.
  cbn [flat_map]. rewrite <- app_assoc. rewrite scan_escape by (try lia; intro Heq; apply app_eq_nil in Heq; destruct Heq; discriminate).
  rewrite IH by exact Hv. reflexivity.
Qed.

(* integers *)
Lemma digits_value_snoc : forall ds x, digits_value (ds ++ [x]) = digits_value ds * 10 + (x - 48).
Proof. intros. unfold digits_value. rewrite fold_left_app. reflexivity. Qed.

Lemma digits_aux_spec :
  forall f n acc, 0 <= n < 10 ^ Z.of_nat (S f) ->
    exists d ds, digits_aux (S f) n acc = d :: ds ++ acc /\
      Forall (fun x => is_digit x = true) ds /\
      ((49 <= d <= 57) \/ (d = 48 /\ ds = [] /\ n = 0)) /\
      digits_value (d :: ds) = n.
Proof.
  induction f as [|f IH]; intros n acc Hn.
  - change (10 ^ Z.of_nat 1) with 10 in Hn.
    exists (48 + n), []. cbn [digits_aux]. replace (n <? 10) with true by lia.
    split; [reflexivity|]. split; [constructor|].
    split; [destruct (Z.eq_dec n 0); [right; repeat split; lia|left; lia]|].
    unfold digits_value; cbn [fold_left]; lia.
  - change (digits_aux (S (S f)) n acc) with
      (if n <? 10 then (48 + n) :: acc else digits_aux (S f) (n / 10) ((48 + n mod 10) :: acc)).
    destruct (Z.ltb_spec n 10).
    + exists (48 + n), []. split; [reflexivity|]. split; [constructor|].
    split; [destruct (Z.eq_dec n 0); [right; repeat split; lia|left; lia]|].
    unfold digits_value; cbn [fold_left]; lia.
    + assert (Hq : 0 <= n / 10 < 10 ^ Z.of_nat (S f)).
      { rewrite Nat2Z.inj_succ, Z.pow_succ_r in Hn by lia.
        split; [apply Z.div_pos; lia|]. apply Z.div_lt_upper_bound; lia. }
      destruct (IH (n / 10) ((48 + n mod 10) :: acc) Hq) as (d & ds & E & Hds & Hd & Hv).
      exists d, (ds ++ [48 + n mod 10]). rewrite E, <- app_assoc. split; [reflexivity|].
      split.
      * apply Forall_app. split; [exact Hds|]. constructor; [|constructor].
        unfold is_digit. pose proof (Z.mod_pos_bound n 10). lia.
      * split.
        -- destruct Hd as [Hd|(_ & _ & Hd)]; [left; exact Hd|].
           exfalso. pose proof (Z.div_le_lower_bound n 10 1). lia.
        -- change (d :: ds ++ [48 + n mod 10]) with ((d :: ds) ++ [48 + n mod 10]).
           rewrite digits_value_snoc, Hv. pose proof (Z.div_mod n 10). lia.
Qed.

Lemma digits_fuel : forall n, 0 <= n -> n < 10 ^ Z.of_nat (S (Z.to_nat (Z.log2 n))).
Proof.
  intros n Hn. rewrite Nat2Z.inj_succ, Z2Nat.id by apply Z.log2_nonneg.
  destruct (Z.eq_dec n 0) as [->|Hn0]; [reflexivity|].
  destruct (Z.log2_spec n) as [_ H2]; [lia|].
  eapply Z.lt_le_trans; [exact H2|].
  apply Z.pow_le_mono_l. lia.
Qed.

Lemma int_repr_spec :
  forall z, exists d ds,
    int_repr z = (if z <? 0 then [45] else []) ++ d :: ds /\
    Forall (fun x => is_digit x = true) ds /\
    ((49 <= d <= 57) \/ (d = 48 /\ ds = [] /\ z = 0)) /\
    digits_value (d :: ds) = Z.abs z.
Proof.
  intros z. unfold int_repr. destruct (Z.ltb_spec z 0).
  - assert (Hf : 0 <= - z < 10 ^ Z.of_nat (S (Z.to_nat (Z.log2 (- z))))) by (split; [lia|apply digits_fuel; lia]).
    destruct (digits_aux_spec _ _ [] Hf)
      as (d & ds & E & H1 & H2 & H3).
    exists d, ds. rewrite E, app_nil_r. split; [reflexivity|]. split; [exact H1|].
    split; [destruct H2 as [H2|(? & ? & ?)]; [left; exact H2|lia]|]. rewrite H3. lia.
  - assert (Hf : 0 <= z < 10 ^ Z.of_nat (S (Z.to_nat (Z.log2 z)))) by (split; [lia|apply digits_fuel; lia]).
    destruct (digits_aux_spec _ _ [] Hf)
      as (d & ds & E & H1 & H2 & H3).
    exists d, ds. rewrite E, app_nil_r. split; [reflexivity|]. split; [exact H1|].
    split; [exact H2|]. rewrite H3. lia.
Qed.

Lemma take_digits_app :
  forall ds rest, Forall (fun x => is_digit x = true) ds -> delim rest = true ->
    take_digits (ds ++ rest) = (ds, rest).
Proof.
  induction ds as [|x ds IH]; intros rest Hds Hr.
  - destruct rest as [|c rest]; [reflexivity|]. cbn. unfold delim in Hr. unfold is_digit.
    replace ((48 <=? c) && (c <=? 57)) with false by lia. reflexivity.
  - inversion Hds as [|? ? Hx Hds']; subst. cbn [app take_digits]. rewrite Hx, IH by assumption.
    reflexivity.
Qed.

Lemma float_tail_delim : forall rest, delim rest = true -> float_tail rest = false.
Proof.
  intros [|c rest] H; [reflexivity|]. unfold delim in H. unfold float_tail.
  replace (c =? 46) with false by lia. replace ((c =? 101) || (c =? 69)) with false by lia.
  reflexivity.
Qed.

Lemma scan_number_int :
  forall z rest, delim rest = true -> scan_number (int_repr z ++ rest) = Some (PInt z, rest).
Proof.
  intros z rest Hr. destruct (int_repr_spec z) as (d & ds & E & Hds & Hd & Hv). rewrite E.
  unfold scan_number.
  destruct (Z.ltb_spec z 0).
  - cbn [app Z.eqb Pos.eqb].
    destruct Hd as [Hd|(-> & -> & ->)]; [|lia].
    replace ((49 <=? d) && (d <=? 57)) with true by lia.
    rewrite take_digits_app by assumption. rewrite float_tail_delim by assumption.
    rewrite Hv. do 3 f_equal. lia.
  - cbn [app]. replace (d =? 45) with false by lia.
    destruct Hd as [Hd|(-> & -> & ->)].
    + replace ((49 <=? d) && (d <=? 57)) with true by lia.
      rewrite take_digits_app by assumption. rewrite float_tail_delim by assumption.
      rewrite Hv. do 3 f_equal. lia.
    + cbn [app Z.eqb Pos.eqb andb Z.leb Z.compare Pos.compare Pos.compare_cont]. rewrite float_tail_delim by assumption. reflexivity.
Qed.

(* structure *)
Lemma list_Z_eqb_true : forall a b, list_Z_eqb a b = true -> a = b.
Proof.
  induction a as [|x a IH]; intros [|y b] H; try discriminate; [reflexivity|].
  simpl in H. apply andb_prop in H as [H1 H2]. apply Z.eqb_eq in H1. subst. f_equal. auto.
Qed.

Lemma list_Z_eqb_refl : forall a, list_Z_eqb a a = true.
Proof. induction a; simpl; [reflexivity|]. rewrite Z.eqb_refl. assumption. Qed.

Lemma keys_nodup_NoDup : forall ks, keys_nodup ks = true -> NoDup ks.
Proof.
  induction ks as [|k ks IH]; intros H; constructor; simpl in H; apply andb_prop in H as [H1 H2].
  - intro Hin. apply negb_true_iff in H1.
    assert (existsb (list_Z_eqb k) ks = true) by (apply existsb_exists; exists k; split; [exact Hin|apply list_Z_eqb_refl]).
    congruence.
  - auto.
Qed.

Lemma dict_set_fresh : forall acc k v, ~ In k (map fst acc) -> dict_set acc k v = acc ++ [(k, v)].
Proof.
  induction acc as [|[k' v'] acc IH]; intros k v Hk; [reflexivity|].
  simpl in Hk. simpl. destruct (list_Z_eqb k' k) eqn:E.
  - apply list_Z_eqb_true in E. tauto.
  - rewrite IH by tauto. reflexivity.
Qed.

Lemma skip_ws_head : forall c t, is_ws c = false -> skip_ws (c :: t) = c :: t.
Proof. intros c t H. simpl. rewrite H. reflexivity. Qed.

Lemma dumps_head :
  forall v t, dumps false v = Some t ->
    exists c t', t = c :: t' /\ is_ws c = false /\ c <> 44 /\ c <> 93 /\ c <> 125 /\ c <> 58 /\ c <> 65279.
Proof.
  intros v t H. destruct v as [| [] | z | s | l | kv | b | l];
    try rewrite dumps_tuple in H; try rewrite dumps_list in H; try rewrite dumps_dict in H; try (simpl in H; discriminate).
  - simpl in H. injection H as <-. do 2 eexists. split; [reflexivity|]. repeat split; first [reflexivity | discriminate | unfold is_ws; lia | lia].
  - simpl in H. injection H as <-. do 2 eexists. split; [reflexivity|]. repeat split; first [reflexivity | discriminate | unfold is_ws; lia | lia].
  - simpl in H. injection H as <-. do 2 eexists. split; [reflexivity|]. repeat split; first [reflexivity | discriminate | unfold is_ws; lia | lia].
  - simpl in H. injection H as <-. destruct (int_repr_spec z) as (d & ds & E & _ & Hd & _). rewrite E.
    destruct (z <? 0).
    + do 2 eexists. split; [reflexivity|]. repeat split; first [reflexivity | discriminate | unfold is_ws; lia | lia].
    + do 2 eexists. split; [reflexivity|].
      destruct Hd as [Hd|(-> & _)]; repeat split; first [reflexivity | discriminate | unfold is_ws; lia | lia].
  - simpl in H. injection H as <-. do 2 eexists. split; [reflexivity|]. repeat split; first [reflexivity | discriminate | unfold is_ws; lia | lia].
  - destruct (dumps_items false l); cbn [option_map] in H; [|discriminate]. injection H as <-.
    do 2 eexists. split; [reflexivity|]. repeat split; first [reflexivity | discriminate | unfold is_ws; lia | lia].
  - destruct (dumps_members false kv); cbn [option_map] in H; [|discriminate]. injection H as <-.
    do 2 eexists. split; [reflexivity|]. repeat split; first [reflexivity | discriminate | unfold is_ws; lia | lia].
  - destruct (dumps_items false l); cbn [option_map] in H; [|discriminate]. injection H as <-.
    do 2 eexists. split; [reflexivity|]. repeat split; first [reflexivity | discriminate | unfold is_ws; lia | lia].
Qed.

Lemma scan_value_number :
  forall f c r, c <> 34 -> c <> 123 -> c <> 91 -> c <> 110 -> c <> 116 -> c <> 102 ->
    scan_value (S f) (c :: r) = scan_number (c :: r).
Proof.
  intros f c r H1 H2 H3 H4 H5 H6. cbn [scan_value].
  replace (c =? 34) with false by lia. replace (c =? 123) with false by lia.
  replace (c =? 91) with false by lia.
  change (u "null") with [110; 117; 108; 108].
  change (u "true") with [116; 114; 117; 101].
  change (u "false") with [102; 97; 108; 115; 101].
  cbn [has_prefix].
  replace (110 =? c) with false by lia. replace (116 =? c) with false by lia.
  replace (102 =? c) with false by lia. reflexivity.
Qed.


Lemma dumps_items_head :
  forall l T, l <> [] -> dumps_items false l = Some T ->
    exists c T', T = c :: T' /\ is_ws c = false /\ c <> 93.
Proof.
  intros [|x l] T Hl H; [congruence|]. cbn [dumps_items] in H.
  destruct (dumps false x) as [tx|] eqn:Ex; [|discriminate].
  destruct (dumps_head x tx Ex) as (c & t' & -> & Hc & _ & H93 & _).
  destruct l as [|y l].
  - injection H as <-. eauto.
  - destruct (dumps_items false (y :: l)); [|discriminate]. injection H as <-. eauto.
Qed.

Lemma arr_elems_ok :
  forall l, Forall scan_ok l -> forallb json_value l = true -> l <> [] ->
    forall T f acc rest, dumps_items false l = Some T -> (S (List.length T) < f)%nat ->
      arr_elems f acc (T ++ 93 :: rest) = Some (PList (acc ++ l), rest).
Proof.
  induction l as [|x l IH]; intros Hok Hv Hne T f acc rest HT Hf; [congruence|].
  inversion Hok as [|? ? Hx Hl]; subst. simpl in Hv. apply andb_prop in Hv as [Hvx Hvl].
  destruct f as [|f]; [lia|].
  cbn [dumps_items] in HT. destruct (dumps false x) as [tx|] eqn:Ex; [|discriminate].
  destruct l as [|y l].
  - injection HT as <-. cbn [arr_elems].
    rewrite (Hx tx f (93 :: rest) Hvx Ex ltac:(lia) eq_refl). reflexivity.
  - destruct (dumps_items false (y :: l)) as [T'|] eqn:ET; [|discriminate].
    injection HT as <-. cbn [arr_elems].
    change (u ", ") with [44; 32] in *. rewrite <- !app_assoc. cbn [app].
    rewrite !length_app in Hf. cbn [List.length] in Hf.
    rewrite (Hx tx f (44 :: 32 :: T' ++ 93 :: rest) Hvx Ex ltac:(lia) eq_refl).
    cbn [skip_ws is_ws Z.eqb Pos.eqb orb].
    destruct (dumps_items_head (y :: l) T' ltac:(congruence) ET) as (c & T'' & -> & Hc & _).
    rewrite <- app_comm_cons, skip_ws_head by exact Hc. rewrite app_comm_cons.
    rewrite (IH Hl Hvl ltac:(congruence) (c :: T'') f (acc ++ [x]) rest eq_refl ltac:(lia)).
    rewrite <- app_assoc. reflexivity.
Qed.

Lemma dumps_members_head :
  forall kv M, kv <> [] -> dumps_members false kv = Some M -> exists T, M = 34 :: T.
Proof.
  intros [|[k x] kv] M Hne H; [congruence|]. cbn [dumps_members] in H.
  destruct (dumps false x); [|discriminate].
  destruct kv as [|p kv].
  - injection H as <-. eexists. reflexivity.
  - destruct (dumps_members false (p :: kv)); [|discriminate]. injection H as <-.
    eexists. reflexivity.
Qed.

Ltac app_norm := repeat progress (rewrite <- ?app_assoc; cbn [app]).

Ltac len_simpl H := repeat progress (rewrite ?length_app in H; cbn [List.length] in H).

Lemma obj_members_ok :
  forall kv, Forall (fun p => scan_ok (snd p)) kv ->
    forallb (fun p => forallb valid_char (fst p) && json_value (snd p)) kv = true -> kv <> [] ->
    forall M f acc rest, NoDup (map fst acc ++ map fst kv) ->
      dumps_members false kv = Some M -> (S (List.length M) < f)%nat ->
      obj_members f acc (M ++ 125 :: rest) = Some (PDict (acc ++ kv), rest).
Proof.
  induction kv as [|[k x] kv IH]; intros Hok Hv Hne M f acc rest Hnd HM Hf; [congruence|].
  inversion Hok as [|? ? Hx Hl]; subst. simpl in Hv.
  apply andb_prop in Hv as [Hvx Hvl]. apply andb_prop in Hvx as [Hk Hvx]. simpl in Hx.
  destruct f as [|f]; [lia|].
  cbn [dumps_members] in HM. destruct (dumps false x) as [tx|] eqn:Ex; [|discriminate].
  destruct (dumps_head x tx Ex) as (c & t' & Etx & Hc & _ & _ & _ & _ & _).
  cbn [map] in Hnd.
  assert (Hfresh : ~ In k (map fst acc)) by (intro; apply (NoDup_remove_2 _ _ _ Hnd); apply in_or_app; left; assumption).
  destruct kv as [|p kv].
  - injection HM as <-. unfold quote in *. change (u ": ") with [58; 32] in *.
    app_norm.
    cbn [obj_members Z.eqb Pos.eqb]. rewrite scan_string by exact Hk.
    cbn [skip_ws is_ws Z.eqb Pos.eqb orb].
    rewrite Etx at 1. rewrite <- app_comm_cons, skip_ws_head by exact Hc. rewrite app_comm_cons, <- Etx.
    len_simpl Hf.
    rewrite (Hx tx f (125 :: rest) Hvx Ex ltac:(lia) eq_refl).
    cbn [skip_ws is_ws Z.eqb Pos.eqb orb]. rewrite dict_set_fresh by exact Hfresh. reflexivity.
  - destruct (dumps_members false (p :: kv)) as [M'|] eqn:EM; [|discriminate].
    destruct (dumps_members_head (p :: kv) M' ltac:(congruence) EM) as [M'' EM''].
    injection HM as <-. unfold quote in *. change (u ": ") with [58; 32] in *.
    change (u ", ") with [44; 32] in *.
    app_norm.
    cbn [obj_members Z.eqb Pos.eqb]. rewrite scan_string by exact Hk.
    cbn [skip_ws is_ws Z.eqb Pos.eqb orb].
    rewrite Etx at 1. rewrite <- app_comm_cons, skip_ws_head by exact Hc. rewrite app_comm_cons, <- Etx.
    len_simpl Hf.
    rewrite (Hx tx f (44 :: 32 :: M' ++ 125 :: rest) Hvx Ex ltac:(lia) eq_refl).
    cbn [skip_ws is_ws Z.eqb Pos.eqb orb]. rewrite dict_set_fresh by exact Hfresh.
    rewrite EM''. cbn [app skip_ws is_ws Z.eqb Pos.eqb orb]. rewrite app_comm_cons, <- EM''.
    rewrite (IH Hl Hvl ltac:(congruence) M' f (acc ++ [(k, x)]) rest).
    + rewrite <- app_assoc. reflexivity.
    + rewrite map_app, <- app_assoc. exact Hnd.
    + reflexivity.
    + lia.
Qed.

Lemma scan_dumps : forall v, scan_ok v.
Proof.
  induction v as [| b | z | s | l Hl | kv Hkv | b | l _] using pyval_ind_nested;
    intros t f rest Hv Hd Hf Hr; (destruct f as [|f]; [lia|]).
  - injection Hd as <-. reflexivity.
  - destruct b; injection Hd as <-; reflexivity.
  - injection Hd as <-. destruct (int_repr_spec z) as (d & ds & E & _ & Hd & _).
    rewrite <- (scan_number_int z rest Hr). rewrite E.
    destruct (z <? 0); cbn [app].
    + apply scan_value_number; discriminate.
    + apply scan_value_number; destruct Hd as [Hd|(-> & _)]; (discriminate || lia).
  - injection Hd as <-. unfold quote. app_norm.
    cbn [scan_value Z.eqb Pos.eqb]. simpl in Hv. rewrite scan_string by exact Hv. reflexivity.
  - rewrite dumps_list in Hd. destruct (dumps_items false l) as [T|] eqn:ET; [|discriminate].
    injection Hd as <-. app_norm. simpl in Hv. len_simpl Hf.
    cbn [scan_value Z.eqb Pos.eqb].
    destruct l as [|x l'].
    + injection ET as <-. reflexivity.
    + destruct (dumps_items_head (x :: l') T ltac:(congruence) ET) as (c & T' & -> & Hc & H93).
      rewrite <- app_comm_cons, skip_ws_head by exact Hc.
      replace (c =? 93) with false by lia. rewrite app_comm_cons.
      rewrite (arr_elems_ok (x :: l') Hl Hv ltac:(congruence) (c :: T') f [] rest ET ltac:(lia)).
      reflexivity.
  - rewrite dumps_dict in Hd. destruct (dumps_members false kv) as [M|] eqn:EM; [|discriminate].
    injection Hd as <-. app_norm. simpl in Hv. len_simpl Hf.
    apply andb_prop in Hv as [Hnd Hv].
    cbn [scan_value Z.eqb Pos.eqb].
    destruct kv as [|p kv'].
    + injection EM as <-. reflexivity.
    + destruct (dumps_members_head (p :: kv') M ltac:(congruence) EM) as [M' ->].
      cbn [app skip_ws is_ws Z.eqb Pos.eqb orb]. rewrite app_comm_cons.
      rewrite (obj_members_ok (p :: kv') Hkv Hv ltac:(congruence) (34 :: M') f [] rest
                 (keys_nodup_NoDup _ Hnd) EM ltac:(lia)).
      reflexivity.
  - discriminate.
  - discriminate.
Qed.

Lemma loads_dumps : forall v t, json_value v = true -> dumps false v = Some t -> loads t = Some v.
Proof.
  intros v t Hv Hd. destruct (dumps_head v t Hd) as (c & t' & Et & Hc & _ & _ & _ & _ & Hbom).
  pose proof (scan_dumps v t (2 * List.length t + 2)%nat [] Hv Hd ltac:(lia) eq_refl) as Hs.
  rewrite app_nil_r in Hs. unfold loads. rewrite Et in *.
  rewrite (skip_ws_head c t' Hc). rewrite Hs. cbn [skip_ws].
  destruct c as [|p|p]; try reflexivity.
  repeat (destruct p; try reflexivity). exfalso. apply Hbom. reflexivity.
Qed.

Lemma json_roundtrip_exact :
  forall v b, json_value v = true -> json_encode v (PStr (u "utf-8")) = inr b ->
    json_decode b (PStr (u "utf-8")) = inr v.
Proof.
  intros v b Hv He. unfold json_encode in He.
  destruct (dumps false v) as [t|] eqn:Hd; [|discriminate].
  unfold codec_encode in He. cbn [list_Z_eqb u list_ascii_of_string map] in He.
  change (list_Z_eqb (u "utf-8") (u "utf-8")) with true in He.
  destruct (utf8_encode t) as [b'|] eqn:Hu; [|discriminate]. injection He as <-.
  unfold json_decode, codec_decode. change (list_Z_eqb (u "utf-8") (u "utf-8")) with true.
  rewrite (utf8_roundtrip t b' Hu). rewrite (loads_dumps v t Hv Hd). reflexivity.
Qed.


(* ------------------------------------------------------------------ *)
(** ** The frame codec: decoding a frame delivered in chunks *)

Lemma read_split : forall o, read o = (read_chunk o ;;; process_stages).
Proof. reflexivity. Qed.

Lemma protoheader_decode :
  forall hl, 0 <= hl -> Z.lor (Z.shiftl (Z.shiftr hl 8) 8) (Z.land hl 255) = hl.
Proof.
  intros hl Hhl. bits_to_arith.
  rewrite (lor_add_low _ _ 8) by (cbn; Z.div_mod_to_equations; lia).
  Z.div_mod_to_equations; lia.
Qed.

Lemma prefix_split :
  forall (a t b c : list Z), a ++ t = b ++ c -> (List.length b <= List.length a)%nat ->
    a = b ++ skipn (List.length b) a /\ skipn (List.length b) a ++ t = c.
Proof.
  intros a t b c E Hl.
  pose proof (f_equal (firstn (List.length b)) E) as E1.
  pose proof (f_equal (skipn (List.length b)) E) as E2.
  rewrite firstn_app, (proj2 (Nat.sub_0_le _ _) Hl), firstn_O, app_nil_r in E1.
  rewrite firstn_app, Nat.sub_diag, firstn_O, app_nil_r, firstn_all in E1.
  rewrite skipn_app, (proj2 (Nat.sub_0_le _ _) Hl), skipn_O in E2.
  rewrite skipn_app, Nat.sub_diag, skipn_O, skipn_all, app_nil_l in E2.
  split; [|exact E2].
  rewrite <- E1 at 1. symmetry. apply firstn_skipn.
Qed.

Lemma slice_nat : forall (b : bytes) n, slice_to b (Z.of_nat n) = firstn n b /\ slice_from b (Z.of_nat n) = skipn n b.
Proof.
  intros. unfold slice_to, slice_from. destruct (Z.ltb_spec (Z.of_nat n) 0); [lia|].
  rewrite Nat2Z.id. auto.
Qed.

(** A frame [F] with JSON header bytes [hb] decoding to [hdr] and payload
    [cb], read by a connection [c0] waiting for its response. *)
Section FrameStages.
Variables (hdr : pyval) (hb cb : bytes).
Variables (rg : option events_mask) (sb : bytes) (rq : bool) (rqst : pyval).

Local Abbreviation hlen := (List.length hb).
Local Abbreviation hl := (Z.of_nat (List.length hb)).
Local Abbreviation F := ([Z.shiftr hl 8; Z.land hl 255] ++ hb ++ cb).
Local Abbreviation c0 := (mkConn rg true [] sb rq None PNone PNone rqst).
Local Abbreviation stg := (frame_stage_conn c0 hlen hdr).

Hypothesis Hhb : json_decode hb (PStr (u "utf-8")) = inr hdr.
Hypothesis Hcl : py_getitem hdr (u "content-length") = inr (PInt (Z.of_nat (List.length cb))).
Hypothesis Hreq : check_required hdr required_headers = inr tt.
Hypothesis Htr : truthy hdr = true.

Ltac stages_unfold :=
  unfold process_stages, frame_stage_conn, set_recv_buffer, set_jsonheader_len, set_jsonheader,
    get, bind, ret; cbn [registered sock_open recv_buffer send_buffer request_queued
    jsonheader_len jsonheader response request truthy].

Lemma stages_0_wait : forall p, (List.length p < 2)%nat -> process_stages (stg 0 p) = (inr tt, stg 0 p).
Proof.
  intros p Hp. destruct p as [|x [|y p]]; [| |cbn in Hp; lia]; reflexivity.
Qed.

Lemma stages_0_go : forall p t, p ++ t = F -> (2 <= List.length p)%nat ->
  process_stages (stg 0 p) = process_stages (stg 1 p).
Proof.
  intros p t E Hp.
  destruct (prefix_split p t [Z.shiftr hl 8; Z.land hl 255] (hb ++ cb) E Hp) as [Ep _].
  cbn [List.length] in Ep. destruct p as [|x [|y p]]; [cbn in Hp; lia..|].
  cbn [skipn app] in Ep. injection Ep as -> ->.
  stages_unfold. unfold process_protoheader, get, bind, put, set_recv_buffer, set_jsonheader_len.
  cbn [recv_buffer skipn]. rewrite protoheader_decode by lia. reflexivity.
Qed.

Lemma stages_1_wait : forall p, (2 <= List.length p < 2 + hlen)%nat ->
  process_stages (stg 1 p) = (inr tt, stg 1 p).
Proof.
  intros p Hp. stages_unfold. unfold process_jsonheader, get, bind, ret.
  cbn [recv_buffer]. rewrite length_skipn.
  rewrite Z.geb_leb.
  destruct (Z.leb_spec hl (Z.of_nat (List.length p - 2))); [lia|]. reflexivity.
Qed.

Lemma stages_1_go : forall p t, p ++ t = F -> (2 + hlen <= List.length p)%nat ->
  process_stages (stg 1 p) = process_stages (stg 2 p).
Proof.
  intros p t E Hp.
  destruct (prefix_split p t ([Z.shiftr hl 8; Z.land hl 255] ++ hb) cb ltac:(rewrite <- app_assoc; exact E)
              ltac:(rewrite length_app; cbn [List.length]; lia)) as [Ep _].
  rewrite length_app in Ep. cbn [List.length] in Ep.
  assert (E2 : skipn 2 p = hb ++ skipn (2 + hlen) p).
  { rewrite Ep at 1. rewrite <- app_assoc. reflexivity. }
  stages_unfold. unfold process_jsonheader, get, bind, ret, put, lift,
    set_recv_buffer, set_jsonheader. cbn [recv_buffer jsonheader_len jsonheader response truthy].
  rewrite E2. rewrite length_app.
  rewrite Z.geb_leb. destruct (Z.leb_spec hl (Z.of_nat (hlen + List.length (skipn (2 + hlen) p)))); [|lia].
  destruct (slice_nat (hb ++ skipn (2 + hlen) p) hlen) as [S1 S2].
  rewrite S1, S2, firstn_app, firstn_all, Nat.sub_diag, firstn_O, app_nil_r.
  rewrite skipn_app, skipn_all, Nat.sub_diag, skipn_O, app_nil_l.
  rewrite Hhb, Hreq.
  cbn [registered sock_open recv_buffer send_buffer request_queued jsonheader_len jsonheader response request].
  destruct hdr; [discriminate Htr|..]; reflexivity.
Qed.

Lemma stages_2 : forall p, process_stages (stg 2 p) = process_response (stg 2 p).
Proof.
  intros p. unfold process_stages, frame_stage_conn, set_recv_buffer, set_jsonheader_len,
    set_jsonheader, get, bind, ret.
  cbn [registered sock_open recv_buffer send_buffer request_queued jsonheader_len jsonheader response request].
  destruct hdr; [discriminate Htr|..]; cbv beta iota; cbn [jsonheader response]; rewrite Htr; reflexivity.
Qed.

Lemma response_wait : forall p t, p ++ t = F -> (2 + hlen <= List.length p)%nat -> t <> [] ->
  process_response (stg 2 p) = (inr tt, stg 2 p).
Proof.
  intros p t E Hp Ht.
  assert (Hl : (List.length p + List.length t = 2 + hlen + List.length cb)%nat).
  { rewrite <- length_app, E, !length_app. reflexivity. }
  destruct t as [|x t]; [congruence|]. cbn [List.length] in Hl.
  unfold process_response, frame_stage_conn, get, bind, lift, ret.
  cbn [recv_buffer jsonheader set_recv_buffer set_jsonheader_len set_jsonheader].
  rewrite Hcl. cbn [py_index]. rewrite length_skipn.
  rewrite Z.geb_leb. destruct (Z.leb_spec (Z.of_nat (List.length cb)) (Z.of_nat (List.length p - (2 + hlen)))); [lia|].
  reflexivity.
Qed.

Lemma F_length : (List.length F = 2 + hlen + List.length cb)%nat.
Proof. rewrite !length_app. reflexivity. Qed.

Lemma stages_from : forall k p t, p ++ t = F -> (k <= frame_stage hlen p)%nat ->
  process_stages (stg k p) =
  match t with [] => process_response (stg 2 p) | _ :: _ => (inr tt, stg (frame_stage hlen p) p) end.
Proof.
  intros k p t E Hk.
  assert (Hl : (List.length p + List.length t = 2 + hlen + List.length cb)%nat)
    by (rewrite <- length_app, E; exact F_length).
  unfold frame_stage in *.
  destruct (Nat.ltb_spec (List.length p) 2).
  - assert (k = 0)%nat as -> by lia. destruct t as [|x t]; [cbn in Hl; lia|].
    apply stages_0_wait. assumption.
  - destruct (Nat.ltb_spec (List.length p) (2 + hlen)).
    + destruct t as [|x t]; [cbn in Hl; lia|].
      destruct k as [|[|k]]; [|apply stages_1_wait; lia|lia].
      rewrite (stages_0_go p (x :: t) E) by lia. apply stages_1_wait; lia.
    + assert (E2 : process_stages (stg k p) = process_response (stg 2 p)).
      { destruct k as [|[|[|k]]]; try lia.
        - rewrite (stages_0_go p t E), (stages_1_go p t E) by lia. apply stages_2.
        - rewrite (stages_1_go p t E) by lia. apply stages_2.
        - apply stages_2. }
      rewrite E2. destruct t as [|x t]; [reflexivity|].
      apply (response_wait p (x :: t) E); [lia|discriminate].
Qed.

Lemma frame_stage_mono : forall q d, (frame_stage hlen q <= frame_stage hlen (q ++ d))%nat.
Proof.
  intros q d. unfold frame_stage. rewrite length_app.
  destruct (Nat.ltb_spec (List.length q) 2), (Nat.ltb_spec (List.length q + List.length d) 2),
    (Nat.ltb_spec (List.length q) (2 + hlen)), (Nat.ltb_spec (List.length q + List.length d) (2 + hlen));
    lia.
Qed.

Lemma chunk_stage : forall q d,
  set_recv_buffer (stg (frame_stage hlen q) q) (recv_buffer (stg (frame_stage hlen q) q) ++ d) =
  stg (frame_stage hlen q) (q ++ d).
Proof.
  intros q d. unfold frame_stage.
  destruct (Nat.ltb_spec (List.length q) 2); [reflexivity|].
  destruct (Nat.ltb_spec (List.length q) (2 + hlen)); cbn - [skipn]; rewrite skipn_app;
    (replace (_ - List.length q)%nat with 0%nat by lia); reflexivity.
Qed.

Lemma read_step : forall q d t, q ++ d ++ t = F -> d <> [] ->
  read (RecvData d) (stg (frame_stage hlen q) q) =
  match t with
  | [] => process_response (stg 2 (q ++ d))
  | _ :: _ => (inr tt, stg (frame_stage hlen (q ++ d)) (q ++ d))
  end.
Proof.
  intros q d t E Hd. rewrite read_split.
  assert (Hopen : sock_open (stg (frame_stage hlen q) q) = true)
    by (unfold frame_stage; destruct (_ <? 2)%nat; [|destruct (_ <? 2 + hlen)%nat]; reflexivity).
  unfold read_chunk, bind at 1, bind at 1, get. rewrite Hopen.
  destruct d as [|x d]; [congruence|]. cbn [negb]. unfold put.
  rewrite chunk_stage. apply stages_from.
  - rewrite <- app_assoc. exact E.
  - apply frame_stage_mono.
Qed.

Lemma bind_ret_tt : forall (m : MM unit) s, (m ;;; ret tt) s = m s.
Proof.
  intros m s. unfold bind, ret. destruct (m s) as [[e|[]] s']; reflexivity.
Qed.

Lemma read_all_chunks : forall chunks q, chunks <> [] -> Forall (fun d => d <> []) chunks ->
  q ++ List.concat chunks = F ->
  read_all chunks (stg (frame_stage hlen q) q) = process_response (stg 2 F).
Proof.
  induction chunks as [|d ds IH]; intros q Hne Hall E; [congruence|].
  inversion Hall as [|? ? Hd Hds]; subst.
  cbn [read_all List.concat] in *.
  destruct ds as [|d' ds'].
  - cbn [List.concat] in E. rewrite app_nil_r in E.
    unfold read_all. rewrite bind_ret_tt.
    rewrite (read_step q d []); [| rewrite app_nil_r; exact E | exact Hd].
    rewrite E. reflexivity.
  - inversion Hds as [|? ? Hd' _]; subst.
    cbn [List.concat] in E.
    assert (Ht : d' ++ List.concat ds' <> []) by (destruct d'; [congruence|discriminate]).
    unfold bind at 1.
    rewrite (read_step q d (d' ++ List.concat ds') E Hd).
    destruct (d' ++ List.concat ds') eqn:Et; [congruence|].
    apply IH; [discriminate|assumption|].
    rewrite <- app_assoc. cbn [List.concat]. rewrite Et. exact E.
Qed.

Lemma stg_init : stg (frame_stage hlen []) [] = c0.
Proof. reflexivity. Qed.

Lemma frame_read_whole : read (RecvData F) c0 = process_response (stg 2 F).
Proof.
  rewrite <- stg_init, <- (bind_ret_tt (read (RecvData F))).
  change ((read (RecvData F) ;;; ret tt) (stg (frame_stage hlen []) []))
    with (read_all [F] (stg (frame_stage hlen []) [])).
  apply read_all_chunks; [discriminate|apply Forall_cons; [discriminate|apply Forall_nil]|apply app_nil_r].
Qed.

Lemma frame_read_chunks : forall chunks, List.concat chunks = F -> Forall (fun d => d <> []) chunks ->
  read_all chunks c0 = read (RecvData F) c0.
Proof.
  intros chunks E Hall.
  assert (Hne : chunks <> []) by (intros ->; discriminate E).
  rewrite frame_read_whole, <- stg_init. exact (read_all_chunks chunks [] Hne Hall E).
Qed.

Lemma skipn_frame : skipn (2 + hlen) F = cb.
Proof.
  cbn [skipn app Nat.add]. rewrite skipn_app, skipn_all, Nat.sub_diag. reflexivity.
Qed.

End FrameStages.

Section FrameDecode.
Variables (bo : list Z) (r : pyval) (hb cb : bytes).
Variables (rg : option events_mask) (sb : bytes) (rq : bool) (rqst : pyval).

Local Abbreviation hdr := (json_frame_header bo (Z.of_nat (List.length cb))).
Local Abbreviation hlen := (List.length hb).
Local Abbreviation hl := (Z.of_nat (List.length hb)).
Local Abbreviation F := ([Z.shiftr hl 8; Z.land hl 255] ++ hb ++ cb).
Local Abbreviation c0 := (mkConn rg true [] sb rq None PNone PNone rqst).
Local Abbreviation stg := (frame_stage_conn c0 hlen hdr).

Hypothesis Hhb : json_decode hb (PStr (u "utf-8")) = inr hdr.

Lemma frame_read_all : forall chunks, List.concat chunks = F -> Forall (fun d => d <> []) chunks ->
  read_all chunks c0 = read (RecvData F) c0.
Proof. exact (frame_read_chunks hdr hb cb rg sb rq rqst Hhb eq_refl eq_refl eq_refl). Qed.

Hypothesis Hcb : json_decode cb (PStr (u "utf-8")) = inr r.

Lemma response_final :
  process_response (stg 2 F) =
  match r with
  | PDict _ => (inr tt, mkConn None false [] sb rq (Some hl) hdr r rqst)
  | _ => (inl AttributeError, mkConn rg true [] sb rq (Some hl) hdr r rqst)
  end.
Proof.
  unfold frame_stage_conn, set_recv_buffer, set_jsonheader_len, set_jsonheader.
  cbn [registered sock_open recv_buffer send_buffer request_queued jsonheader_len jsonheader response request].
  rewrite skipn_frame.
  destruct (slice_nat cb (List.length cb)) as [E1 E2].
  rewrite firstn_all in E1. rewrite skipn_all in E2.
  unfold process_response, get, bind, lift, put, ret.
  cbn [registered sock_open recv_buffer send_buffer request_queued jsonheader_len jsonheader response request].
  change (py_getitem (json_frame_header bo (Z.of_nat (List.length cb))) (u "content-length"))
    with (@inr exn pyval (PInt (Z.of_nat (List.length cb)))).
  change (py_getitem (json_frame_header bo (Z.of_nat (List.length cb))) (u "content-type"))
    with (@inr exn pyval (PStr (u "text/json"))).
  change (py_getitem (json_frame_header bo (Z.of_nat (List.length cb))) (u "content-encoding"))
    with (@inr exn pyval (PStr (u "utf-8"))).
  cbn [py_index]. rewrite Z.geb_leb, Z.leb_refl. cbn [negb].
  rewrite E1, E2.
  change (py_eq_str (PStr (u "text/json")) (u "text/json")) with true. cbv iota.
  rewrite Hcb.
  unfold set_response, process_response_json_content, close, get, bind, put, ret, raise,
    set_registered, set_sock_open, set_recv_buffer.
  cbn [registered sock_open recv_buffer send_buffer request_queued jsonheader_len jsonheader response request].
  destruct r; reflexivity.
Qed.

Lemma frame_read_final :
  read (RecvData F) c0 =
  match r with
  | PDict _ => (inr tt, mkConn None false [] sb rq (Some hl) hdr r rqst)
  | _ => (inl AttributeError, mkConn rg true [] sb rq (Some hl) hdr r rqst)
  end.
Proof.
  rewrite (frame_read_whole hdr hb cb rg sb rq rqst Hhb eq_refl eq_refl eq_refl).
  exact response_final.
Qed.

End FrameDecode.

Lemma json_encode_utf8 : forall v enc b, json_encode v enc = inr b -> enc = PStr (u "utf-8").
Proof.
  intros v enc b E. unfold json_encode, codec_encode in E.
  destruct (dumps false v); [|discriminate].
  destruct enc as [| | |e| | | |]; try discriminate.
  destruct (list_Z_eqb e (u "utf-8")) eqn:Ee; [|discriminate].
  apply list_Z_eqb_true in Ee. subst. reflexivity.
Qed.

Lemma request_frame_json : forall bo r enc frame,
  request_frame bo r (PStr (u "text/json")) enc = inr frame ->
  enc = PStr (u "utf-8") /\
  exists hb cb, json_encode r enc = inr cb /\
    json_encode (json_frame_header bo (Z.of_nat (List.length cb))) (PStr (u "utf-8")) = inr hb /\
    frame = [Z.shiftr (Z.of_nat (List.length hb)) 8; Z.land (Z.of_nat (List.length hb)) 255] ++ hb ++ cb.
Proof.
  intros bo r enc frame E. unfold request_frame in E.
  change (py_eq_str (PStr (u "text/json")) (u "text/json")) with true in E. cbv iota in E.
  destruct (json_encode r enc) as [e|cb] eqn:Ecb; [discriminate|].
  pose proof (json_encode_utf8 _ _ _ Ecb) as ->. split; [reflexivity|].
  unfold create_message in E. cbn [py_len] in E.
  destruct (json_encode (PDict _) _) as [e|hb] eqn:Ehb in E; [discriminate|].
  destruct (65535 <? _) in E; [discriminate|].
  injection E as <-. exists hb, cb. split; [reflexivity|]. split; [exact Ehb|reflexivity].
Qed.

Lemma header_valid : forall bo n, forallb valid_char bo = true ->
  json_value (json_frame_header bo n) = true.
Proof. intros bo n Hbo. simpl. rewrite Hbo. reflexivity. Qed.

Lemma dumps_items_one : forall ea x, dumps_items ea [x] = dumps ea x.
Proof.
  intros ea x.
  change (dumps_items ea [x]) with
    (match dumps ea x, @nil pyval with
     | Some a, [] => Some a
     | Some a, _ => match dumps_items ea [] with Some b => Some (a ++ u ", " ++ b) | None => None end
     | None, _ => None
     end).
  destruct (dumps ea x); reflexivity.
Qed.

Lemma dumps_members_one : forall ea k x,
  dumps_members ea [(k, x)] = option_map (fun a => quote ea k ++ u ": " ++ a) (dumps ea x).
Proof.
  intros ea k x.
  change (dumps_members ea [(k, x)]) with
    (match dumps ea x, @nil (list Z * pyval) with
     | Some a, [] => Some (quote ea k ++ u ": " ++ a)
     | Some a, _ => match dumps_members ea [] with
                    | Some b => Some (quote ea k ++ u ": " ++ a ++ u ", " ++ b)
                    | None => None end
     | None, _ => None
     end).
  destruct (dumps ea x); reflexivity.
Qed.

Lemma dumps_items_untuple : forall ea l,
  Forall (fun x => dumps ea (untuple x) = dumps ea x) l ->
  dumps_items ea (map untuple l) = dumps_items ea l.
Proof.
  intros ea l H. induction H as [|x l Hx H IH]; [reflexivity|].
  destruct l as [|y l].
  - cbn [map]. rewrite !dumps_items_one. exact Hx.
  - cbn [map] in IH |- *. rewrite !dumps_items_cons, Hx, IH. reflexivity.
Qed.

Lemma dumps_members_untuple : forall ea kv,
  Forall (fun p => dumps ea (untuple (snd p)) = dumps ea (snd p)) kv ->
  dumps_members ea (map (fun '(k, x) => (k, untuple x)) kv) = dumps_members ea kv.
Proof.
  intros ea kv H. induction H as [|[k x] kv Hx H IH]; [reflexivity|].
  cbn [snd] in Hx. destruct kv as [|[k' y] kv].
  - cbn [map]. rewrite !dumps_members_one, Hx. reflexivity.
  - cbn [map] in IH |- *. rewrite !dumps_members_cons, Hx, IH. reflexivity.
Qed.

(** [json.dumps] writes a tuple exactly as the list of its items. *)
Lemma dumps_untuple : forall ea v, dumps ea (untuple v) = dumps ea v.
Proof.
  intros ea v.
  induction v as [| b | z | s | l Hl | kv Hkv | b | l Hl] using pyval_ind_nested; try reflexivity.
  - change (untuple (PList l)) with (PList (map untuple l)).
    rewrite !dumps_list, (dumps_items_untuple ea l Hl). reflexivity.
  - change (untuple (PDict kv)) with (PDict (map (fun '(k, x) => (k, untuple x)) kv)).
    rewrite !dumps_dict, (dumps_members_untuple ea kv Hkv). reflexivity.
  - change (untuple (PTuple l)) with (PList (map untuple l)).
    rewrite dumps_tuple, !dumps_list, (dumps_items_untuple ea l Hl). reflexivity.
Qed.

Lemma map_fst_untuple : forall kv : list (list Z * pyval),
  map fst (map (fun '(k, x) => (k, untuple x)) kv) = map fst kv.
Proof. induction kv as [|[k x] kv IH]; cbn; [reflexivity|]. rewrite IH. reflexivity. Qed.

Lemma json_value_untuple : forall v, valid_pyval v = true -> json_value (untuple v) = true.
Proof.
  intros v.
  induction v as [| b | z | s | l Hl | kv Hkv | b | l Hl] using pyval_ind_nested;
    intros Hv; try exact Hv; try reflexivity.
  - change (untuple (PList l)) with (PList (map untuple l)). cbn [json_value].
    cbn [valid_pyval] in Hv. rewrite forallb_forall in Hv |- *. rewrite Forall_forall in Hl.
    intros y Hy. apply in_map_iff in Hy as [x [<- Hx]]. exact (Hl x Hx (Hv x Hx)).
  - change (untuple (PDict kv)) with (PDict (map (fun '(k, x) => (k, untuple x)) kv)).
    cbn [json_value]. cbn [valid_pyval] in Hv. apply andb_prop in Hv as [Hnd Hv].
    rewrite map_fst_untuple, Hnd. cbn [andb].
    rewrite forallb_forall in Hv |- *. rewrite Forall_forall in Hkv.
    intros q Hq. apply in_map_iff in Hq as [[k x] [<- Hx]].
    specialize (Hv _ Hx). apply andb_prop in Hv as [Hk Hx']. cbn [fst snd] in *.
    rewrite Hk. exact (Hkv _ Hx Hx').
  - change (untuple (PTuple l)) with (PList (map untuple l)). cbn [json_value].
    cbn [valid_pyval] in Hv. rewrite forallb_forall in Hv |- *. rewrite Forall_forall in Hl.
    intros y Hy. apply in_map_iff in Hy as [x [<- Hx]]. exact (Hl x Hx (Hv x Hx)).
Qed.

(** The UTF-8 JSON round trip of [_json_encode] and [_json_decode]: the
    value comes back with its tuples turned into lists. *)
Lemma json_roundtrip :
  forall v b, valid_pyval v = true -> json_encode v (PStr (u "utf-8")) = inr b ->
    json_decode b (PStr (u "utf-8")) = inr (untuple v).
Proof.
  intros v b Hv He. apply json_roundtrip_exact; [exact (json_value_untuple v Hv)|].
  unfold json_encode in *. rewrite dumps_untuple. exact He.
Qed.




(** C4: splitting that frame into any number of consecutive non-empty
    chunks and feeding them to [read] one read event at a time gives the
    same result and the same final connection as delivering the whole frame
    in one read event. *)
Theorem chunked_delivery_same_result : forall bo r enc frame chunks rg sb rq rqst,
  forallb valid_char bo = true -> valid_pyval r = true ->
  request_frame bo r (PStr (u "text/json")) enc = inr frame ->
  List.concat chunks = frame -> Forall (fun d => d <> []) chunks ->
  read_all chunks (mkConn rg true [] sb rq None PNone PNone rqst) =
  read (RecvData frame) (mkConn rg true [] sb rq None PNone PNone rqst).
Proof.
  intros bo r enc frame chunks rg sb rq rqst Hbo Hr E Ec Hall.
  destruct (request_frame_json bo r enc frame E) as [-> [hb [cb [Ecb [Ehb ->]]]]].
  pose proof (json_roundtrip_exact _ _ (header_valid bo _ Hbo) Ehb) as Hhb.
  exact (frame_read_all bo hb cb rg sb rq rqst Hhb chunks Ec Hall).
Qed.




Lemma chunked_delivery_same_result_witness :
  forallb valid_char (u "little") = true /\ valid_pyval sample_response = true /\
  request_frame (u "little") sample_response (PStr (u "text/json")) (PStr (u "utf-8")) = inr sample_frame /\
  List.concat sample_chunks = sample_frame /\ Forall (fun d => d <> []) sample_chunks /\
  read_all sample_chunks (mkConn (Some EVENT_READ) true [] [] true None PNone PNone PNone) =
  read (RecvData sample_frame) (mkConn (Some EVENT_READ) true [] [] true None PNone PNone PNone).
Proof.
  assert (H1 : forallb valid_char (u "little") = true) by reflexivity.
  assert (H2 : valid_pyval sample_response = true) by reflexivity.
  assert (H3 : request_frame (u "little") sample_response (PStr (u "text/json")) (PStr (u "utf-8")) = inr sample_frame)
    by (vm_compute; reflexivity).
  assert (H4 : List.concat sample_chunks = sample_frame) by (vm_compute; reflexivity).
  assert (H5 : Forall (fun d => d <> []) sample_chunks)
    by (vm_compute; repeat constructor; discriminate).
  repeat (split; [assumption|]).
  exact (chunked_delivery_same_result _ _ _ _ _ (Some EVENT_READ) [] true PNone H1 H2 H3 H4 H5).
Defined.

(* ------------------------------------------------------------------ *)
(** * Further properties of the client and of the connection state machine *)

(** X1: when the configuration has no socket path (missing or empty), the
    client raises [ValueError] with its message and touches no socket. *)
Theorem client_missing_config_raises :
  forall w msg, (w_config w = None \/ w_config w = Some []) ->
    run_client (send_message_to_scheduler_socket w (PStr msg)) =
      (inl (ValueError (u "BTU Configuration is missing a path to the Unix Domain Socket for the scheduler daemon.")), []).
Proof.
  intros w msg [Hc|Hc]; client_unfold; rewrite Hc; reflexivity.
Qed.

(** X2: when opening, configuring or connecting the socket fails, the
    client never closes the socket, sends nothing and never sleeps. *)
Theorem client_connect_failure_never_closes :
  forall w msg p e,
    w_config w = Some p -> p <> [] -> w_exists w p = true -> connect_failure w = Some e ->
    let t := snd (run_client (send_message_to_scheduler_socket w (PStr msg))) in
    ~ In EvClose t /\ sends t = [] /\ ~ In EvSleep t.
Proof.
  intros w msg p e Hc Hp He Hf t. subst t.
  destruct p as [|x p]; [congruence|].
  unfold connect_failure in Hf.
  client_unfold. rewrite Hc, He.
  destruct (w_socket w); [simpl; intuition discriminate|].
  destruct (w_settimeout w); [simpl; intuition discriminate|].
  destruct (w_connect w); [|discriminate]. simpl. intuition discriminate.
Qed.

(** X3: on a successful connection the client opens the socket, sets a 5 s
    timeout, connects to the absolute path, sends the UTF-8 message, sleeps and
    receives 2048 bytes only if the send succeeded, and always closes last. *)
Theorem client_socket_operation_order :
  forall w msg p mb,
    w_config w = Some p -> p <> [] -> w_exists w p = true -> connect_failure w = None ->
    utf8_encode msg = Some mb ->
    snd (run_client (send_message_to_scheduler_socket w (PStr msg))) =
      [EvSocket; EvSettimeout 5; EvConnect (w_absolute w p)] ++
      match w_send w with
      | inl _ => [EvSend mb 0]
      | inr n => [EvSend mb n; EvSleep; EvRecv 2048]
      end ++ [EvClose].
Proof.
  intros w msg p mb Hc Hp He Hf Hm.
  destruct p as [|x p]; [congruence|].
  unfold connect_failure in Hf.
  destruct (w_socket w) eqn:Hs; [discriminate|].
  destruct (w_settimeout w) eqn:Ht; [discriminate|].
  client_unfold. rewrite Hc, He, Hs, Ht, Hf, Hm. simpl.
  destruct (w_send w) as [e|n]; simpl; [reflexivity|].
  destruct (w_recv w) as [e|d]; simpl; [reflexivity|].
  destruct d as [|b d]; [reflexivity|].
  destruct (utf8_decode (b :: d)); reflexivity.
Qed.

(** X4: a request whose content is [bytes] is never sent: [json.dumps]
    raises [TypeError] before any socket operation. *)
Theorem send_message_bytes_content_type_error :
  forall w rt b, run_client (send_message w rt (PBytes b)) = (inl TypeError, []).
Proof. intros w rt b. destruct rt; reflexivity. Qed.


Ltac asc := unfold is_ascii; rewrite andb_true_iff, Z.leb_le, Z.ltb_lt; lia.

Lemma forallb_app_true : forall (f : Z -> bool) a b,
  forallb f a = true -> forallb f b = true -> forallb f (a ++ b) = true.
Proof. intros f a b Ha Hb. rewrite forallb_app, Ha, Hb. reflexivity. Qed.

Lemma hexdig_ascii : forall x, is_ascii (hexdig (Z.land x 15)) = true.
Proof.
  intros x. rewrite land_15. pose proof (Z.mod_pos_bound x 16 ltac:(lia)).
  unfold hexdig. destruct (Z.ltb_spec (x mod 16) 10); asc.
Qed.

Lemma u_escape_ascii : forall n, forallb is_ascii (u_escape n) = true.
Proof.
  intros n. unfold u_escape. cbn [forallb].
  rewrite !hexdig_ascii. reflexivity.
Qed.

Lemma escape_ascii : forall c, forallb is_ascii (escape_char true c) = true.
Proof.
  intros c. unfold escape_char.
  destruct (c =? 92); [reflexivity|].
  destruct (c =? 34); [reflexivity|].
  destruct (c =? 8); [reflexivity|].
  destruct (c =? 12); [reflexivity|].
  destruct (c =? 10); [reflexivity|].
  destruct (c =? 13); [reflexivity|].
  destruct (c =? 9); [reflexivity|].
  destruct (Z.ltb_spec c 32); [apply u_escape_ascii|].
  destruct (Z.ltb_spec 126 c); cbn [andb].
  - destruct (c <? 65536); [apply u_escape_ascii|].
    apply forallb_app_true; apply u_escape_ascii.
  - cbn [forallb]. rewrite andb_true_r. asc.
Qed.

Lemma quote_ascii : forall s, forallb is_ascii (quote true s) = true.
Proof.
  intros s. unfold quote. cbn [forallb]. change (is_ascii 34) with true. cbn [andb].
  apply forallb_app_true; [|reflexivity].
  induction s as [|c s IH]; [reflexivity|]. cbn [flat_map].
  apply forallb_app_true; [apply escape_ascii|exact IH].
Qed.

Lemma int_repr_ascii : forall z, forallb is_ascii (int_repr z) = true.
Proof.
  intros z. destruct (int_repr_spec z) as [d [ds [E [Hds [Hd _]]]]]. rewrite E.
  apply forallb_app_true; [destruct (z <? 0); reflexivity|].
  cbn [forallb]. apply andb_true_intro. split; [destruct Hd as [Hd|[Hd _]]; asc|].
  clear E Hd. induction Hds as [|x ds Hx _ IH]; [reflexivity|].
  cbn [forallb]. rewrite IH, andb_true_r.
  unfold is_digit in Hx. rewrite andb_true_iff, !Z.leb_le in Hx. asc.
Qed.

Lemma dumps_items_ascii : forall l,
  Forall (fun v => forall s, dumps true v = Some s -> forallb is_ascii s = true) l ->
  forall b, dumps_items true l = Some b -> forallb is_ascii b = true.
Proof.
  intros l H. induction H as [|x l Hx Hl IH]; intros b Hb; [injection Hb as <-; reflexivity|].
  destruct l as [|y l'].
  + cbn [dumps_items] in Hb. destruct (dumps true x) as [a|] eqn:Ha; [|discriminate].
    injection Hb as <-. exact (Hx a eq_refl).
  + rewrite dumps_items_cons in Hb.
    destruct (dumps true x) as [a|] eqn:Ha; [|discriminate].
    destruct (dumps_items true (y :: l')) as [b'|]; [|discriminate].
    cbn [option_map] in Hb.
    assert (b = a ++ u ", " ++ b') as -> by congruence. rewrite !forallb_app. cbn [forallb].
    rewrite (Hx a eq_refl), (IH b' eq_refl). reflexivity.
Qed.

Lemma dumps_ascii : forall v s, dumps true v = Some s -> forallb is_ascii s = true.
Proof.
  induction v using pyval_ind_nested; intros t Ht; try rewrite dumps_tuple in Ht.
  - injection Ht as <-. reflexivity.
  - destruct b; injection Ht as <-; reflexivity.
  - injection Ht as <-. apply int_repr_ascii.
  - injection Ht as <-. apply quote_ascii.
  - rewrite dumps_list in Ht.
    destruct (dumps_items true l) as [b|] eqn:Hb; [|discriminate]. injection Ht as <-.
    cbn [forallb]. change (is_ascii 91) with true. cbn [andb].
    apply forallb_app_true; [|reflexivity].
    exact (dumps_items_ascii l H b Hb).
  - rewrite dumps_dict in Ht.
    destruct (dumps_members true kv) as [b|] eqn:Hb; [|discriminate]. injection Ht as <-.
    cbn [forallb]. change (is_ascii 123) with true. cbn [andb].
    apply forallb_app_true; [|reflexivity].
    revert b Hb. induction H as [|[k x] kv Hx Hkv IH]; intros b Hb; [injection Hb as <-; reflexivity|].
    cbn [snd] in Hx.
    destruct kv as [|p' kv'].
    + change (dumps_members true [(k, x)]) with
        (match dumps true x, @nil (list Z * pyval) with
         | Some a, [] => Some (quote true k ++ u ": " ++ a)
         | _, _ => None end) in Hb.
      destruct (dumps true x) as [a|] eqn:Ha; [|discriminate].
      assert (b = quote true k ++ u ": " ++ a) as -> by congruence. rewrite !forallb_app. cbn [forallb].
      rewrite quote_ascii, (Hx a eq_refl). reflexivity.
    + rewrite dumps_members_cons in Hb.
      destruct (dumps true x) as [a|] eqn:Ha; [|discriminate].
      destruct (dumps_members true (p' :: kv')) as [b'|]; [|discriminate].
      cbn [option_map] in Hb.
      assert (b = quote true k ++ u ": " ++ a ++ u ", " ++ b') as -> by congruence. rewrite !forallb_app. cbn [forallb].
      rewrite quote_ascii, (Hx a eq_refl), (IH b' eq_refl). reflexivity.
  - discriminate.
  - rewrite dumps_list in Ht.
    destruct (dumps_items true l) as [b|] eqn:Hb; [|discriminate]. injection Ht as <-.
    cbn [forallb]. change (is_ascii 91) with true. cbn [andb].
    apply forallb_app_true; [|reflexivity].
    exact (dumps_items_ascii l H b Hb).
Qed.

Lemma utf8_encode_ascii : forall s, forallb is_ascii s = true -> utf8_encode s = Some s.
Proof.
  induction s as [|c s IH]; intros H; [reflexivity|].
  cbn [forallb] in H. apply andb_true_iff in H as [Hc Hs].
  unfold is_ascii in Hc. rewrite andb_true_iff, Z.leb_le, Z.ltb_lt in Hc.
  cbn [utf8_encode]. unfold utf8_char.
  destruct (Z.ltb_spec c 0); [lia|]. destruct (Z.ltb_spec c 128); [|lia].
  rewrite (IH Hs). reflexivity.
Qed.


Lemma send_message_sent_bytes :
  forall w rt v d n,
    In (EvSend d n) (snd (run_client (send_message w rt v))) ->
    request_message rt v = Some d /\ forallb is_ascii d = true.
Proof.
  intros w rt v d n Hin.
  unfold send_message in Hin.
  destruct (request_message rt v) as [s|] eqn:Er; [|contradiction].
  assert (Ha : forallb is_ascii s = true) by exact (dumps_ascii _ _ Er).
  apply in_sends in Hin.
  destruct (client_send_calls w s) as [H0|[mb [Hmb Hs]]].
  - rewrite H0 in Hin. contradiction.
  - rewrite Hs in Hin. rewrite utf8_encode_ascii in Hmb by exact Ha.
    injection Hmb as <-. destruct Hin as [Hin|[]]. injection Hin as -> _. auto.
Qed.
(** X5: whatever [send_message] sends is exactly the [json.dumps] text of
    its request dictionary, and that text is pure ASCII. *)
Theorem send_message_sends_ascii_json :
  forall w rt v d n,
    In (EvSend d n) (snd (run_client (send_message w rt v))) ->
    request_message rt v = Some d /\ forallb is_ascii d = true.
Proof. exact send_message_sent_bytes. Qed.


Lemma request_message_text : forall rt v,
  request_message rt v =
  option_map (fun t => jtext "{'request_type': '" ++ RequestType_name rt ++
                       jtext "', 'request_content': " ++ t ++ jtext "}") (dumps true v).
Proof.
  intros rt v. unfold request_message. rewrite dumps_dict, dumps_members_cons.
  change (dumps true (PStr (RequestType_name rt))) with (Some (quote true (RequestType_name rt))).
  change (dumps_members true [(u "request_content", v)]) with
    (match dumps true v, @nil (list Z * pyval) with
     | Some a, [] => Some (quote true (u "request_content") ++ u ": " ++ a)
     | _, _ => None end).
  destruct (dumps true v) as [t|]; [|reflexivity].
  destruct rt; reflexivity.
Qed.

(** X6: [reload_task_schedule] and [cancel_task_schedule] send the request
    types [create_task_schedule] and [cancel_task_schedule] with the id as
    [request_content]. *)
Theorem reload_and_cancel_send_request_text :
  forall w id d n,
    (In (EvSend d n) (snd (run_client (reload_task_schedule w id))) ->
     exists t, dumps true id = Some t /\
       d = jtext "{'request_type': 'create_task_schedule', 'request_content': " ++ t ++ jtext "}") /\
    (In (EvSend d n) (snd (run_client (SchedulerAPI_cancel_task_schedule w id))) ->
     exists t, dumps true id = Some t /\
       d = jtext "{'request_type': 'cancel_task_schedule', 'request_content': " ++ t ++ jtext "}").
Proof.
  intros w id d n. split; intros Hin;
    apply send_message_sent_bytes in Hin as [E _];
    rewrite request_message_text in E;
    destruct (dumps true id) as [t|]; try discriminate;
    exists t; split; try reflexivity;
    injection E as <-; reflexivity.
Qed.

(** X8: [process_protoheader] reads the first two buffered bytes as a
    big-endian length and removes them; with fewer than two bytes it does
    nothing. *)
Theorem protoheader_big_endian :
  forall c b0 b1 rest,
    recv_buffer c = b0 :: b1 :: rest -> 0 <= b0 < 256 -> 0 <= b1 < 256 ->
    process_protoheader c =
      (inr tt, set_recv_buffer (set_jsonheader_len c (Some (256 * b0 + b1))) rest) /\
    (forall p, (List.length p < 2)%nat -> process_protoheader (set_recv_buffer c p) = (inr tt, set_recv_buffer c p)).
Proof.
  intros c b0 b1 rest Hb H0 H1. split.
  - unfold process_protoheader, get, bind, put. rewrite Hb.
    rewrite Z.shiftl_mul_pow2 by lia. change (2 ^ 8) with 256.
    rewrite (lor_add_low (b0 * 256) b1 8); [rewrite (Z.mul_comm b0 256); reflexivity|lia| |change (2 ^ 8) with 256; lia].
    change (2 ^ 8) with 256. apply Z.mod_mul. lia.
  - intros p Hp. destruct p as [|x [|y p]]; [reflexivity|reflexivity|cbn in Hp; lia].
Qed.

(** X9: an empty [recv] on an open socket raises a [RuntimeError]
    (peer closed) with the connection unchanged. *)
Theorem read_peer_closed :
  forall c, sock_open c = true ->
    read (RecvData []) c = (inl (RuntimeError (u "Peer closed.")), c).
Proof. intros c Hc. unfold read, read_chunk, bind, get, raise. rewrite Hc. reflexivity. Qed.

(** X10: once the socket is closed, every read raises [AttributeError]
    with the connection unchanged, and a second [close] unregisters and
    raises [AttributeError]. *)
Theorem closed_connection_raises :
  forall c, sock_open c = false ->
    (forall o, read o c = (inl AttributeError, c)) /\
    close c = (inl AttributeError, set_registered c None).
Proof.
  intros c Hc. split.
  - intros o. unfold read, read_chunk, bind, get, raise. rewrite Hc. reflexivity.
  - unfold close, bind, get, put, raise. rewrite Hc. reflexivity.
Qed.

Lemma request_frame_other : forall bo content ct enc frame,
  py_eq_str ct (u "text/json") = false ->
  request_frame bo content ct enc = inr frame ->
  exists hb cb, content = PBytes cb /\
    json_encode (frame_header bo ct enc (Z.of_nat (List.length cb))) (PStr (u "utf-8")) = inr hb /\
    frame = [Z.shiftr (Z.of_nat (List.length hb)) 8; Z.land (Z.of_nat (List.length hb)) 255] ++ hb ++ cb.
Proof.
  intros bo content ct enc frame Hct E. unfold request_frame in E. rewrite Hct in E.
  unfold create_message in E.
  destruct (py_len content) as [e|n] eqn:Hn; [discriminate|].
  destruct (json_encode (PDict _) _) as [e|hb] eqn:Ehb in E; [discriminate|].
  destruct (65535 <? _) in E; [discriminate|].
  destruct content as [| | | | | |cb|]; try discriminate.
  injection E as <-. cbn [py_len] in Hn. injection Hn as <-.
  exists hb, cb. auto.
Qed.

Lemma frame_header_valid : forall bo ct enc n, forallb valid_char bo = true ->
  valid_pyval ct = true -> valid_pyval enc = true ->
  valid_pyval (frame_header bo ct enc n) = true.
Proof. intros bo ct enc n Hbo Hct Henc. simpl. rewrite Hbo, Hct, Henc. reflexivity. Qed.

Lemma py_eq_str_untuple : forall v s, py_eq_str (untuple v) s = py_eq_str v s.
Proof. intros v s. destruct v; reflexivity. Qed.

Lemma binary_response_final : forall bo ct enc hb cb rg sb rq rqst,
  py_eq_str ct (u "text/json") = false ->
  let hdr := frame_header bo ct enc (Z.of_nat (List.length cb)) in
  let hl := Z.of_nat (List.length hb) in
  let F := [Z.shiftr hl 8; Z.land hl 255] ++ hb ++ cb in
  process_response (frame_stage_conn (mkConn rg true [] sb rq None PNone PNone rqst) (List.length hb) hdr 2 F) =
  (inr tt, mkConn None false [] sb rq (Some hl) hdr (PBytes cb) rqst).
Proof.
  intros bo ct enc hb cb rg sb rq rqst Hct hdr hl F.
  unfold frame_stage_conn, set_recv_buffer, set_jsonheader_len, set_jsonheader.
  cbn [registered sock_open recv_buffer send_buffer request_queued jsonheader_len jsonheader response request].
  subst F hl. rewrite skipn_frame.
  destruct (slice_nat cb (List.length cb)) as [E1 E2].
  rewrite firstn_all in E1. rewrite skipn_all in E2.
  unfold process_response, get, bind, lift, put, ret.
  cbn [registered sock_open recv_buffer send_buffer request_queued jsonheader_len jsonheader response request].
  change (py_getitem hdr (u "content-length")) with (@inr exn pyval (PInt (Z.of_nat (List.length cb)))).
  change (py_getitem hdr (u "content-type")) with (@inr exn pyval ct).
  cbn [py_index]. rewrite Z.geb_leb, Z.leb_refl. cbn [negb].
  rewrite E1, E2, Hct.
  reflexivity.
Qed.

(** X11: a frame whose content type is not text/json and whose content
    is bytes is decoded, in any non-empty chunking, back to the same bytes;
    the connection is then closed and unregistered. *)
Theorem binary_frame_roundtrip :
  forall bo content ct enc frame chunks rg sb rq rqst,
    forallb valid_char bo = true -> valid_pyval ct = true -> valid_pyval enc = true ->
    py_eq_str ct (u "text/json") = false ->
    request_frame bo content ct enc = inr frame ->
    List.concat chunks = frame -> Forall (fun d => d <> []) chunks ->
    let res := read_all chunks (mkConn rg true [] sb rq None PNone PNone rqst) in
    fst res = inr tt /\ response (snd res) = content /\ recv_buffer (snd res) = [] /\
    registered (snd res) = None /\ sock_open (snd res) = false.
Proof.
  intros bo content ct enc frame chunks rg sb rq rqst Hbo Hctv Henc Hct E Ec Hall res.
  destruct (request_frame_other bo content ct enc frame Hct E) as [hb [cb [-> [Ehb ->]]]].
  pose proof (json_roundtrip _ _ (frame_header_valid bo ct enc (Z.of_nat (List.length cb)) Hbo Hctv Henc) Ehb) as Hhb.
  change (untuple (frame_header bo ct enc (Z.of_nat (List.length cb))))
    with (frame_header bo (untuple ct) (untuple enc) (Z.of_nat (List.length cb))) in Hhb.
  subst res.
  rewrite (frame_read_chunks _ hb cb rg sb rq rqst Hhb eq_refl eq_refl eq_refl chunks Ec Hall).
  rewrite (frame_read_whole _ hb cb rg sb rq rqst Hhb eq_refl eq_refl eq_refl).
  rewrite (binary_response_final bo (untuple ct) (untuple enc) hb cb rg sb rq rqst
             ltac:(rewrite py_eq_str_untuple; exact Hct)).
  repeat split.
Qed.

(** X12: after reading a whole text/json frame with content encoding
    ["utf-8"], the response is the encoded value with its tuples turned into
    lists; the connection is closed only when that value is a dictionary,
    otherwise [close] is never reached and [AttributeError] is raised. *)
Theorem json_response_close_only_for_dict :
  forall bo r frame rg sb rq rqst,
    forallb valid_char bo = true -> valid_pyval r = true ->
    request_frame bo r (PStr (u "text/json")) (PStr (u "utf-8")) = inr frame ->
    let res := read (RecvData frame) (mkConn rg true [] sb rq None PNone PNone rqst) in
    response (snd res) = untuple r /\
    match r with
    | PDict _ => fst res = inr tt /\ sock_open (snd res) = false /\ registered (snd res) = None
    | _ => fst res = inl AttributeError /\ sock_open (snd res) = true /\ registered (snd res) = rg
    end.
Proof.
  intros bo r frame rg sb rq rqst Hbo Hr E res.
  destruct (request_frame_json bo r _ frame E) as [_ [hb [cb [Ecb [Ehb ->]]]]].
  pose proof (json_roundtrip _ _ Hr Ecb) as Hcb.
  pose proof (json_roundtrip_exact _ _ (header_valid bo _ Hbo) Ehb) as Hhb.
  subst res. rewrite (frame_read_final bo (untuple r) hb cb rg sb rq rqst Hhb Hcb).
  destruct r; repeat split.
Qed.

(** X7: [_json_decode] in ["utf-8"] applied to what [_json_encode] in
    ["utf-8"] produced gives back the value with every tuple turned into a
    list, for every value built from [None], booleans, [int]s, [str]s,
    lists, tuples and [str]-keyed dicts. *)
Theorem json_encode_decode_roundtrip :
  forall v b, valid_pyval v = true -> json_encode v (PStr (u "utf-8")) = inr b ->
    json_decode b (PStr (u "utf-8")) = inr (untuple v).
Proof. exact json_roundtrip. Qed.




Lemma write_queued : forall bo o c,
  request_queued c = true -> sock_open c = true -> registered c <> None -> send_no_error o = true ->
  write bo o c = (inr tt, queued_after c (sent_total [o])).
Proof.
  intros bo o c Hq Ho Hr He.
  destruct c as [rg so rb sb rq jl jh rs req]; cbn in Hq, Ho, Hr; subst.
  unfold write, write_chunk, queued_after, set_selector_events_mask, get, bind, ret, put, raise.
  cbn [registered sock_open recv_buffer send_buffer request_queued jsonheader_len jsonheader response request].
  destruct o as [n| |e]; [|cbn [sent_total]; rewrite skipn_O|discriminate].
  - destruct sb as [|x sb].
    + rewrite skipn_nil. destruct rg; [reflexivity|congruence].
    + cbn [negb]. unfold set_send_buffer, set_registered.
      cbn [registered sock_open recv_buffer send_buffer request_queued jsonheader_len jsonheader response request].
      cbn [sent_total]. rewrite Nat.add_0_r. destruct (skipn n (x :: sb)); [|reflexivity].
      destruct rg; [reflexivity|congruence].
  - destruct sb as [|x sb]; [destruct rg; [reflexivity|congruence]|reflexivity].
Qed.

Lemma sent_total_cons : forall o os, sent_total (o :: os) = (sent_total [o] + sent_total os)%nat.
Proof. intros [n| |e] os; cbn; lia. Qed.

Lemma queued_after_after : forall c k1 k2,
  queued_after (queued_after c k1) k2 = queued_after c (k1 + k2).
Proof.
  intros [rg so rb sb rq jl jh rs req] k1 k2.
  unfold queued_after, set_registered, set_send_buffer.
  cbn [registered sock_open recv_buffer send_buffer request_queued jsonheader_len jsonheader response request].
  rewrite skipn_skipn, (Nat.add_comm k2 k1).
  destruct (skipn (k1 + k2) sb) eqn:E2; [reflexivity|].
  destruct (skipn k1 sb) eqn:E1; [|reflexivity].
  rewrite <- (firstn_skipn k1 sb), E1, app_nil_r, skipn_firstn_comm, Nat.sub_add_distr, Nat.sub_diag in E2.
  discriminate.
Qed.

Lemma write_all_queued : forall bo os c, os <> [] -> forallb send_no_error os = true ->
  request_queued c = true -> sock_open c = true -> registered c <> None ->
  write_all bo os c = (inr tt, queued_after c (sent_total os)).
Proof.
  intros bo os. induction os as [|o os IH]; intros c Hne He Hq Ho Hr; [congruence|].
  cbn [forallb] in He. apply andb_true_iff in He as [Ho1 Hos].
  cbn [write_all]. unfold bind at 1. rewrite (write_queued bo o c Hq Ho Hr Ho1).
  destruct os as [|o' os'].
  - reflexivity.
  - rewrite (IH (queued_after c (sent_total [o]))); [|discriminate|exact Hos|exact Hq|exact Ho|].
    + rewrite queued_after_after, <- sent_total_cons. reflexivity.
    + unfold queued_after, set_registered. cbn [registered].
      destruct (skipn _ _); [discriminate|exact Hr].
Qed.

Lemma queue_request_ok : forall bo c content ty enc frame,
  py_getitem (request c) (u "content") = inr content ->
  py_getitem (request c) (u "type") = inr ty ->
  py_getitem (request c) (u "encoding") = inr enc ->
  request_frame bo content ty enc = inr frame ->
  queue_request bo c = (inr tt, set_request_queued (set_send_buffer c (send_buffer c ++ frame)) true).
Proof.
  intros bo c content ty enc frame H1 H2 H3 H4.
  unfold queue_request, get, bind, lift, put. rewrite H1, H2, H3, H4. reflexivity.
Qed.

Lemma write_fresh : forall bo o c content ty enc frame,
  request_queued c = false ->
  py_getitem (request c) (u "content") = inr content ->
  py_getitem (request c) (u "type") = inr ty ->
  py_getitem (request c) (u "encoding") = inr enc ->
  request_frame bo content ty enc = inr frame ->
  write bo o c = write bo o (set_request_queued (set_send_buffer c (send_buffer c ++ frame)) true).
Proof.
  intros bo o c content ty enc frame Hrq H1 H2 H3 H4.
  pose proof (queue_request_ok bo c content ty enc frame H1 H2 H3 H4) as Hq.
  unfold write at 1. unfold bind at 1 2. unfold get at 1. rewrite Hrq, Hq.
  reflexivity.
Qed.

Lemma write_all_fresh :
  forall bo ev req content ty enc frame os,
    py_getitem req (u "content") = inr content ->
    py_getitem req (u "type") = inr ty ->
    py_getitem req (u "encoding") = inr enc ->
    request_frame bo content ty enc = inr frame ->
    os <> [] -> forallb send_no_error os = true ->
    write_all bo os (new_message ev req) =
      (inr tt, mkConn (if (List.length frame <=? sent_total os)%nat then Some EVENT_READ else Some ev)
                      true [] (skipn (sent_total os) frame) true None PNone PNone req).
Proof.
  intros bo ev req content ty enc frame os H1 H2 H3 H4 Hne He.
  destruct os as [|o os]; [congruence|].
  cbn [write_all]. unfold bind at 1.
  rewrite (write_fresh bo o (new_message ev req) content ty enc frame eq_refl H1 H2 H3 H4).
  cbn [forallb] in He. apply andb_true_iff in He as [Ho Hos].
  rewrite (write_queued bo o (set_request_queued (set_send_buffer (new_message ev req) (send_buffer (new_message ev req) ++ frame)) true) eq_refl eq_refl ltac:(discriminate) Ho).
  set (c1 := queued_after _ _).
  assert (Hfin : forall k, queued_after (set_request_queued (set_send_buffer (new_message ev req) (send_buffer (new_message ev req) ++ frame)) true) k =
    mkConn (if (List.length frame <=? k)%nat then Some EVENT_READ else Some ev)
           true [] (skipn k frame) true None PNone PNone req).
  { intros k. unfold queued_after, set_registered, set_send_buffer, set_request_queued, new_message.
    cbn [registered sock_open recv_buffer send_buffer request_queued jsonheader_len jsonheader response request app].
    destruct (Nat.leb_spec (List.length frame) k).
    - rewrite skipn_all2 by lia. reflexivity.
    - destruct (skipn k frame) eqn:Ek; [|reflexivity].
      apply (f_equal (@List.length Z)) in Ek. rewrite length_skipn in Ek. cbn in Ek. lia. }
  destruct os as [|o' os'].
  - subst c1. apply f_equal. apply Hfin.
  - rewrite (write_all_queued bo (o' :: os') c1 ltac:(discriminate) Hos eq_refl eq_refl);
      [|subst c1; unfold queued_after, set_registered; cbn [registered];
        destruct (skipn _ _); discriminate].
    subst c1. rewrite queued_after_after, <- sent_total_cons. apply f_equal. apply Hfin.
Qed.

(** X13: successive error-free write events on a fresh message queue the
    request frame exactly once and send it from the front; the connection
    switches to read events exactly when the whole frame is sent. *)
Theorem write_events_queue_frame_once :
  forall bo ev req content ty enc frame os,
    py_getitem req (u "content") = inr content ->
    py_getitem req (u "type") = inr ty ->
    py_getitem req (u "encoding") = inr enc ->
    request_frame bo content ty enc = inr frame ->
    os <> [] -> forallb send_no_error os = true ->
    write_all bo os (new_message ev req) =
      (inr tt, mkConn (if (List.length frame <=? sent_total os)%nat then Some EVENT_READ else Some ev)
                      true [] (skipn (sent_total os) frame) true None PNone PNone req).
Proof. exact write_all_fresh. Qed.

(** X14: when the request dictionary lacks [content], [type] or
    [encoding], the first write raises [KeyError] with nothing queued. *)
Theorem write_missing_request_key :
  forall bo o c kv k,
    request c = PDict kv -> request_queued c = false ->
    In k [u "content"; u "type"; u "encoding"] -> dict_lookup kv k = None ->
    write bo o c = (inl KeyError, c).
Proof.
  intros bo o c kv k Hreq Hrq Hk Hn.
  unfold write, queue_request, bind, get, lift. rewrite Hrq, Hreq. cbn [py_getitem].
  destruct Hk as [<-|[<-|[<-|[]]]].
  - rewrite Hn. reflexivity.
  - destruct (dict_lookup kv (u "content")); rewrite ?Hn; reflexivity.
  - destruct (dict_lookup kv (u "content")); [|reflexivity].
    destruct (dict_lookup kv (u "type")); rewrite ?Hn; reflexivity.
Qed.

Lemma request_frame_other_not_bytes : forall bo content ct enc,
  py_eq_str ct (u "text/json") = false -> (forall b, content <> PBytes b) ->
  exists e, request_frame bo content ct enc = inl e.
Proof.
  intros bo content ct enc Hct Hb.
  destruct (request_frame bo content ct enc) as [e|frame] eqn:E; [eauto|].
  destruct (request_frame_other bo content ct enc frame Hct E) as [hb [cb [-> _]]].
  exfalso. exact (Hb cb eq_refl).
Qed.

(** X15: a content that is [None], a boolean, an [int], a [str], a list,
    a tuple or a dict, with a content type other than text/json, never gets
    queued: the write raises with the connection unchanged. *)
Theorem write_non_bytes_content_not_queued :
  forall bo o c content ty enc,
    request_queued c = false ->
    py_getitem (request c) (u "content") = inr content ->
    py_getitem (request c) (u "type") = inr ty ->
    py_getitem (request c) (u "encoding") = inr enc ->
    py_eq_str ty (u "text/json") = false -> (forall b, content <> PBytes b) ->
    exists e, write bo o c = (inl e, c).
Proof.
  intros bo o c content ty enc Hrq H1 H2 H3 Hct Hb.
  destruct (request_frame_other_not_bytes bo content ty enc Hct Hb) as [e He].
  exists e. unfold write, queue_request, bind, get, lift. rewrite Hrq, H1, H2, H3, He. reflexivity.
Qed.

Lemma process_events_write_only : forall bo ro so c,
  process_events bo 2 ro so c = write bo so c.
Proof. intros. unfold process_events. cbn [Z.land Z.eqb Pos.land Pos.eqb]. reflexivity. Qed.

Lemma process_events_read_only : forall bo ro so c,
  process_events bo 1 ro so c = read ro c.
Proof. intros. unfold process_events. cbn [Z.land Z.eqb Pos.land Pos.eqb]. apply bind_ret_tt. Qed.

Lemma write_all_one : forall bo o c, write_all bo [o] c = write bo o c.
Proof. intros. apply bind_ret_tt. Qed.

(** X16: a full exchange: a write event that sends the whole request
    frame switches the connection to read events with an empty send buffer,
    and a read event delivering a text/json dictionary response frame
    stores that response (its tuples read back as lists) and closes and
    unregisters the connection. *)
Theorem request_response_exchange :
  forall bo ev req content ty enc frame n bo' kv enc' rframe,
    py_getitem req (u "content") = inr content ->
    py_getitem req (u "type") = inr ty ->
    py_getitem req (u "encoding") = inr enc ->
    request_frame bo content ty enc = inr frame ->
    (List.length frame <= n)%nat ->
    forallb valid_char bo' = true -> valid_pyval (PDict kv) = true ->
    request_frame bo' (PDict kv) (PStr (u "text/json")) enc' = inr rframe ->
    let s1 := process_events bo 2 RecvBlocked (SendOk n) (new_message ev req) in
    let s2 := process_events bo 1 (RecvData rframe) SendBlocked (snd s1) in
    fst s1 = inr tt /\ registered (snd s1) = Some EVENT_READ /\ send_buffer (snd s1) = [] /\
    fst s2 = inr tt /\ response (snd s2) = untuple (PDict kv) /\ request (snd s2) = req /\
    sock_open (snd s2) = false /\ registered (snd s2) = None.
Proof.
  intros bo ev req content ty enc frame n bo' kv enc' rframe H1 H2 H3 H4 Hn Hbo Hr E.
  assert (Hs1 : process_events bo 2 RecvBlocked (SendOk n) (new_message ev req)
                = (inr tt, mkConn (Some EVENT_READ) true [] [] true None PNone PNone req)).
  { rewrite process_events_write_only, <- write_all_one.
    rewrite (write_all_fresh bo ev req content ty enc frame [SendOk n] H1 H2 H3 H4)
      by (discriminate || reflexivity).
    cbn [sent_total]. rewrite Nat.add_0_r.
    apply Nat.leb_le in Hn. rewrite Hn.
    rewrite skipn_all2 by (apply Nat.leb_le; exact Hn). reflexivity. }
  cbv zeta. rewrite Hs1. cbn [fst snd registered send_buffer].
  destruct (request_frame_json bo' (PDict kv) enc' rframe E) as [-> [hb [cb [Ecb [Ehb ->]]]]].
  pose proof (json_roundtrip _ _ Hr Ecb) as Hcb.
  pose proof (json_roundtrip_exact _ _ (header_valid bo' _ Hbo) Ehb) as Hhb.
  rewrite process_events_read_only.
  rewrite (frame_read_final bo' (untuple (PDict kv)) hb cb (Some EVENT_READ) [] true req Hhb Hcb).
  repeat split.
Qed.

Ltac nonempty_chunks := repeat (apply Forall_cons; [discriminate|]); apply Forall_nil.

Lemma client_missing_config_raises_witness :
  run_client (send_message_to_scheduler_socket world_no_config (PStr ping_json)) =
    (inl (ValueError (u "BTU Configuration is missing a path to the Unix Domain Socket for the scheduler daemon.")), []).
Proof. exact (client_missing_config_raises world_no_config ping_json (or_introl eq_refl)). Defined.

Lemma client_connect_failure_never_closes_witness :
  let t := snd (run_client (send_message_to_scheduler_socket world_connect_refused (PStr ping_json))) in
  ~ In EvClose t /\ sends t = [] /\ ~ In EvSleep t.
Proof.
  exact (client_connect_failure_never_closes world_connect_refused ping_json
           (u "/run/btu/scheduler.sock") (OSError (u "Connection refused"))
           eq_refl ltac:(discriminate) eq_refl eq_refl).
Defined.

Lemma client_socket_operation_order_witness :
  snd (run_client (send_message_to_scheduler_socket (world_ok []) (PStr ping_json))) =
    [EvSocket; EvSettimeout 5; EvConnect (u "/run/btu/scheduler.sock")] ++
    [EvSend ping_json 50; EvSleep; EvRecv 2048] ++ [EvClose].
Proof.
  exact (client_socket_operation_order (world_ok []) ping_json (u "/run/btu/scheduler.sock")
           ping_json eq_refl ltac:(discriminate) eq_refl eq_refl ltac:(vm_compute; reflexivity)).
Defined.

Lemma send_message_sends_ascii_json_witness :
  request_message ping PNone = Some ping_json /\ forallb is_ascii ping_json = true.
Proof.
  apply (send_message_sends_ascii_json (world_ok []) ping PNone ping_json 50%nat).
  vm_compute. right; right; right; left. reflexivity.
Defined.

Lemma reload_and_cancel_send_request_text_witness :
  exists t, dumps true (PInt 7) = Some t /\
    jtext "{'request_type': 'create_task_schedule', 'request_content': 7}" =
    jtext "{'request_type': 'create_task_schedule', 'request_content': " ++ t ++ jtext "}".
Proof.
  apply (proj1 (reload_and_cancel_send_request_text (world_ok []) (PInt 7)
                  (jtext "{'request_type': 'create_task_schedule', 'request_content': 7}") 50%nat)).
  vm_compute. right; right; right; left. reflexivity.
Defined.

Lemma json_encode_decode_roundtrip_witness :
  json_decode sample_response_bytes (PStr (u "utf-8")) = inr sample_response.
Proof.
  exact (json_encode_decode_roundtrip sample_response sample_response_bytes
           ltac:(vm_compute; reflexivity) ltac:(vm_compute; reflexivity)).
Defined.

Lemma protoheader_big_endian_witness :
  process_protoheader (set_recv_buffer (new_message EVENT_READ PNone) [0; 42; 7]) =
    (inr tt, set_recv_buffer (set_jsonheader_len (set_recv_buffer (new_message EVENT_READ PNone) [0; 42; 7])
                                                 (Some (256 * 0 + 42))) [7]) /\
  (forall p, (List.length p < 2)%nat ->
     process_protoheader (set_recv_buffer (set_recv_buffer (new_message EVENT_READ PNone) [0; 42; 7]) p) =
       (inr tt, set_recv_buffer (set_recv_buffer (new_message EVENT_READ PNone) [0; 42; 7]) p)).
Proof.
  exact (protoheader_big_endian (set_recv_buffer (new_message EVENT_READ PNone) [0; 42; 7]) 0 42 [7]
           eq_refl ltac:(lia) ltac:(lia)).
Defined.

Lemma read_peer_closed_witness :
  read (RecvData []) (new_message EVENT_READ binary_request) =
    (inl (RuntimeError (u "Peer closed.")), new_message EVENT_READ binary_request).
Proof. exact (read_peer_closed (new_message EVENT_READ binary_request) eq_refl). Defined.

Lemma closed_connection_raises_witness :
  (forall o, read o closed_conn = (inl AttributeError, closed_conn)) /\
  close closed_conn = (inl AttributeError, set_registered closed_conn None).
Proof. exact (closed_connection_raises closed_conn eq_refl). Defined.

Lemma binary_frame_roundtrip_witness :
  let res := read_all [firstn 3 binary_frame; skipn 3 binary_frame]
                      (mkConn (Some EVENT_READ) true [] [] true None PNone PNone binary_request) in
  fst res = inr tt /\ response (snd res) = PBytes [1; 2] /\ recv_buffer (snd res) = [] /\
  registered (snd res) = None /\ sock_open (snd res) = false.
Proof.
  exact (binary_frame_roundtrip (u "little") (PBytes [1; 2])
           (PStr (u "binary/custom-client-binary-type")) (PStr (u "binary")) binary_frame
           [firstn 3 binary_frame; skipn 3 binary_frame] (Some EVENT_READ) [] true binary_request
           ltac:(vm_compute; reflexivity) ltac:(vm_compute; reflexivity) ltac:(vm_compute; reflexivity)
           ltac:(vm_compute; reflexivity) ltac:(vm_compute; reflexivity) ltac:(vm_compute; reflexivity)
           ltac:(vm_compute; nonempty_chunks)).
Defined.

Lemma json_response_close_only_for_dict_witness :
  let res := read (RecvData tuple_frame)
                  (mkConn (Some EVENT_READ) true [] [] true None PNone PNone binary_request) in
  response (snd res) = untuple (PTuple [PInt 1; PInt 2]) /\
  fst res = inl AttributeError /\ sock_open (snd res) = true /\ registered (snd res) = Some EVENT_READ.
Proof.
  exact (json_response_close_only_for_dict (u "little") (PTuple [PInt 1; PInt 2]) tuple_frame
           (Some EVENT_READ) [] true binary_request
           ltac:(vm_compute; reflexivity) ltac:(vm_compute; reflexivity) ltac:(vm_compute; reflexivity)).
Defined.

Lemma write_events_queue_frame_once_witness :
  write_all (u "little") [SendOk 3; SendOk 100] (new_message EVENT_WRITE binary_request) =
    (inr tt, mkConn (if (List.length binary_frame <=? sent_total [SendOk 3; SendOk 100])%nat
                     then Some EVENT_READ else Some EVENT_WRITE)
                    true [] (skipn (sent_total [SendOk 3; SendOk 100]) binary_frame) true None PNone PNone
                    binary_request).
Proof.
  exact (write_events_queue_frame_once (u "little") EVENT_WRITE binary_request (PBytes [1; 2])
           (PStr (u "binary/custom-client-binary-type")) (PStr (u "binary")) binary_frame
           [SendOk 3; SendOk 100] eq_refl eq_refl eq_refl ltac:(vm_compute; reflexivity)
           ltac:(discriminate) eq_refl).
Defined.

Lemma write_missing_request_key_witness :
  write (u "little") (SendOk 100) (new_message EVENT_WRITE request_missing_type) =
    (inl KeyError, new_message EVENT_WRITE request_missing_type).
Proof.
  exact (write_missing_request_key (u "little") (SendOk 100) (new_message EVENT_WRITE request_missing_type)
           [(u "content", PBytes [1; 2]); (u "encoding", PStr (u "binary"))] (u "type")
           eq_refl eq_refl ltac:(right; left; reflexivity) ltac:(vm_compute; reflexivity)).
Defined.

Lemma write_non_bytes_content_not_queued_witness :
  exists e, write (u "little") (SendOk 100) (new_message EVENT_WRITE text_with_binary_type) =
    (inl e, new_message EVENT_WRITE text_with_binary_type).
Proof.
  exact (write_non_bytes_content_not_queued (u "little") (SendOk 100)
           (new_message EVENT_WRITE text_with_binary_type) (PStr (u "ping"))
           (PStr (u "binary/custom-client-binary-type")) (PStr (u "binary"))
           eq_refl eq_refl eq_refl eq_refl ltac:(vm_compute; reflexivity) ltac:(intros b; discriminate)).
Defined.

Lemma request_response_exchange_witness :
  let s1 := process_events (u "little") 2 RecvBlocked (SendOk 200) (new_message EVENT_WRITE binary_request) in
  let s2 := process_events (u "little") 1 (RecvData sample_frame) SendBlocked (snd s1) in
  fst s1 = inr tt /\ registered (snd s1) = Some EVENT_READ /\ send_buffer (snd s1) = [] /\
  fst s2 = inr tt /\ response (snd s2) = sample_response /\ request (snd s2) = binary_request /\
  sock_open (snd s2) = false /\ registered (snd s2) = None.
Proof.
  exact (request_response_exchange (u "little") EVENT_WRITE binary_request (PBytes [1; 2])
           (PStr (u "binary/custom-client-binary-type")) (PStr (u "binary")) binary_frame 200
           (u "little") [(u "result", PInt 1)] (PStr (u "utf-8")) sample_frame
           eq_refl eq_refl eq_refl ltac:(vm_compute; reflexivity) ltac:(vm_compute; lia)
           ltac:(vm_compute; reflexivity) ltac:(vm_compute; reflexivity) ltac:(vm_compute; reflexivity)).
Defined.
